(** * Password / identity correlation engine (pw_analy_7_xjy.py)

    A shallow embedding of the credential-correlation core of
    [src/ex1_xjy/pw_analy_7_xjy.py]: [normalize_alnum], [tokenize_name],
    [LEET_MAP] / [deleet], [detect_relations] and the counting part of
    [analyze_relations], followed by the properties of the specification.

    Conventions of the embedding.
    - A Python [str] is a Rocq [string]; its characters are read as the code
      points below 256, on which [str.lower] and [str.strip] are written out.
    - A value that may be [None] is an [option]; Python's [x or ""] is
      [py_or_empty].
    - A Python [dict] keyed by strings is a [gmap string _]; a [Counter]
      reads 0 at a key it does not hold.
    - Operations that can raise ([list[0]], [/], the chart) live in the error
      monad [result]; of the report, CSV and chart written by
      [analyze_relations] the model keeps the example lists, the rows handed
      to the CSV writer, and the failure of the chart on sizes that sum to 0.
    - [strip_quotes], the two field extractors and the loop of
      [parse_file_collect] are modelled on the lines of a file already read. *)

From Stdlib Require Import ZArith NArith Ascii Floats Uint63.
From stdpp Require Import gmap strings list fin_maps.

Local Open Scope Z_scope.

(** ** Exceptions *)

Inductive PyExc : Type :=
  | IndexError
  | ZeroDivisionError
  | ValueError.

Inductive result (A : Type) : Type :=
  | Ok (a : A)
  | Raise (e : PyExc).
Arguments Ok {A} a.
Arguments Raise {A} e.

Global Instance result_ret : MRet result := @Ok.

Global Instance result_bind : MBind result := λ A B k m,
  match m with
  | Ok a => k a
  | Raise e => Raise e
  end.

(** ** Strings *)

Module PyStr.

Definition code (c : ascii) : N := N_of_ascii c.

Definition in_range (lo hi : N) (c : ascii) : bool :=
  ((lo <=? code c) && (code c <=? hi))%N.

(** The character classes the regular expressions of the source name. *)
Definition is_upper_az (c : ascii) : bool := in_range 65 90 c.
Definition is_lower_az (c : ascii) : bool := in_range 97 122 c.
Definition is_digit09 (c : ascii) : bool := in_range 48 57 c.

(** [[a-z0-9]] *)
Definition is_lower_alnum (c : ascii) : bool :=
  is_lower_az c || is_digit09 c.

(** [[A-Za-z0-9]] *)
Definition is_alnum (c : ascii) : bool :=
  is_upper_az c || is_lower_az c || is_digit09 c.

(** [str.lower] on one code point below 256: A-Z, and the Latin-1 capitals
    192..222 except the multiplication sign 215, move up by 32. *)
Definition lower_char (c : ascii) : ascii :=
  if is_upper_az c || (in_range 192 222 c && negb (code c =? 215)%N)
  then ascii_of_N (code c + 32)
  else c.

(** [str.isspace] on one code point below 256. *)
Definition is_space (c : ascii) : bool :=
  in_range 9 13 c || in_range 28 32 c
  || (code c =? 133)%N || (code c =? 160)%N.

Fixpoint map (f : ascii → ascii) (s : string) : string :=
  match s with
  | EmptyString => EmptyString
  | String c s' => String (f c) (map f s')
  end.

Fixpoint filter (p : ascii → bool) (s : string) : string :=
  match s with
  | EmptyString => EmptyString
  | String c s' => if p c then String c (filter p s') else filter p s'
  end.

Fixpoint all (p : ascii → bool) (s : string) : bool :=
  match s with
  | EmptyString => true
  | String c s' => p c && all p s'
  end.

(** [s.lower()] *)
Definition lower (s : string) : string := map lower_char s.

(** [bool(s)] for a string: true unless empty. *)
Definition nonempty (s : string) : bool :=
  match s with
  | EmptyString => false
  | String _ _ => true
  end.

(** [p.startswith(t)] *)
Definition startswith (p t : string) : bool := String.prefix t p.

(** [t in p]: [t] occurs in [p] as a contiguous substring. *)
Fixpoint contains (t p : string) : bool :=
  String.prefix t p ||
  match p with
  | EmptyString => false
  | String _ p' => contains t p'
  end.

(** [s[::-1]] *)
Definition reverse (s : string) : string := String.rev s.

(** [p.endswith(t)] *)
Definition endswith (p t : string) : bool :=
  String.prefix (reverse t) (reverse p).

(** [s.lstrip()], [s.rstrip()], [s.strip()] *)
Fixpoint lstrip (s : string) : string :=
  match s with
  | EmptyString => EmptyString
  | String c s' => if is_space c then lstrip s' else s
  end.

Fixpoint rstrip (s : string) : string :=
  match s with
  | EmptyString => EmptyString
  | String c s' =>
      match rstrip s' with
      | EmptyString => if is_space c then EmptyString else String c EmptyString
      | r => String c r
      end
  end.

Definition strip (s : string) : string := rstrip (lstrip s).

(** [s.split(sep)] for a one-character separator: the pieces between the
    occurrences of [sep]; never an empty list. *)
Fixpoint split (sep : ascii) (s : string) : list string :=
  match s with
  | EmptyString => [EmptyString]
  | String c s' =>
      if decide (c = sep) then EmptyString :: split sep s'
      else match split sep s' with
           | p :: ps => String c p :: ps
           | [] => [String c EmptyString]
           end
  end.

(** [sep in s] for a one-character [sep]. *)
Fixpoint has_char (sep : ascii) (s : string) : bool :=
  match s with
  | EmptyString => false
  | String c s' => bool_decide (c = sep) || has_char sep s'
  end.

(** [re.split(r'[^A-Za-z0-9]+', s)]: the pieces between the maximal runs of
    characters outside [[A-Za-z0-9]].  [in_sep] says that the previous
    character belonged to such a run; the head of the result is the piece
    being read. *)
Fixpoint re_split_go (in_sep : bool) (s : string) : list string :=
  match s with
  | EmptyString => [EmptyString]
  | String c s' =>
      if is_alnum c then
        match re_split_go false s' with
        | p :: ps => String c p :: ps
        | [] => [String c EmptyString]
        end
      else if in_sep then re_split_go true s'
      else EmptyString :: re_split_go true s'
  end.

Definition re_split_nonalnum (s : string) : list string :=
  re_split_go false s.

End PyStr.

(** ** Sequence indexing *)

(** [l[i]] for [i >= 0]. *)
Definition py_index {A : Type} (l : list A) (i : nat) : result A :=
  match l !! i with
  | Some a => Ok a
  | None => Raise IndexError
  end.

(** [x or ""] *)
Definition py_or_empty (x : option string) : string :=
  match x with
  | Some s => if PyStr.nonempty s then s else ""
  | None => ""
  end.

(** ** Normalizer, tokenizer, de-obfuscator *)

Definition normalize_alnum (s : option string) : string :=
  match s with
  | None => ""
  | Some s => PyStr.filter PyStr.is_lower_alnum (PyStr.lower s)
  end.

Definition tokenize_name (s : option string) : list string :=
  match s with
  | None => []
  | Some s =>
      if negb (PyStr.nonempty s) then []
      else
        let s := PyStr.strip s in
        let parts := PyStr.re_split_nonalnum s in
        PyStr.lower <$> List.filter (fun p => 3 <=? String.length p)%nat parts
  end.

Definition LEET_MAP : gmap ascii ascii :=
  (<["4" := "a"]> (<["@" := "a"]> (
  <["0" := "o"]> (
  <["1" := "l"]> (<["!" := "i"]> (
  <["3" := "e"]> (
  <["$" := "s"]> (<["5" := "s"]> (
  <["7" := "t"]> (<["+" := "t"]> (
  <["2" := "z"]> (
  <["9" := "g"]> (<["6" := "g"]> ∅)))))))))))))%char.

Definition deleet_char (ch : ascii) : ascii :=
  match LEET_MAP !! ch with
  | Some x => x
  | None => ch
  end.

Definition deleet (s : option string) : string :=
  match s with
  | None => ""
  | Some s =>
      if negb (PyStr.nonempty s) then ""
      else PyStr.lower (PyStr.map deleet_char s)
  end.

(** ** Records and relation flags *)

(** One parsed line of a dump: [{'username':..., 'email':..., 'password':...,
    'src':...}].  A field holds a string or [None]. *)
Record record : Type := {
  username : option string;
  email : option string;
  password : option string;
  src : option string
}.

(** The values held by the [results] dict of [detect_relations]: booleans, and
    the two lists of matched tokens. *)
Inductive PyVal : Type :=
  | VBool (b : bool)
  | VList (l : list string).

(** Truth value of [flags.get(k)]: [None] for a missing key, which is false. *)
Definition truthy (v : option PyVal) : bool :=
  match v with
  | Some (VBool b) => b
  | Some (VList l) => match l with [] => false | _ :: _ => true end
  | None => false
  end.

(** The loop
[[
    for t in tokens:
        if t and t in hay:
            results[key] = True
            matched.append(t)
]]
    on the pair of [results] and [matched]. *)
Definition token_loop (key : string) (hay : string) (tokens : list string)
    (st : gmap string PyVal * list string) : gmap string PyVal * list string :=
  foldl (λ st t,
           if PyStr.nonempty t && PyStr.contains t hay
           then (<[key := VBool true]> st.1, st.2 ++ [t])
           else st)
        st tokens.

Definition detect_relations (rec : record) : result (gmap string PyVal) :=
  let uname := py_or_empty (username rec) in
  let email := py_or_empty (email rec) in
  let pwd := py_or_empty (password rec) in
  let u_norm := normalize_alnum (Some uname) in
  let e_norm := normalize_alnum (Some email) in
  let p_norm := normalize_alnum (Some pwd) in
  let results : gmap string PyVal := ∅ in
  let results :=
    <["exact_username" :=
        VBool (PyStr.nonempty u_norm && bool_decide (p_norm = u_norm))]> results in
  let results :=
    <["exact_email" :=
        VBool (PyStr.nonempty e_norm && bool_decide (p_norm = e_norm))]> results in
  let results :=
    <["contains_username" :=
        VBool (PyStr.nonempty u_norm && PyStr.contains u_norm p_norm)]> results in
  let results :=
    <["startswith_username" :=
        VBool (PyStr.nonempty u_norm && PyStr.startswith p_norm u_norm)]> results in
  let results :=
    <["endswith_username" :=
        VBool (PyStr.nonempty u_norm && PyStr.endswith p_norm u_norm)]> results in
  local ← (if PyStr.has_char "@" email
           then py_index (PyStr.split "@" email) 0
           else Ok "");
  let local_norm := normalize_alnum (Some local) in
  let results :=
    <["contains_localpart" :=
        VBool (PyStr.nonempty local_norm && PyStr.contains local_norm p_norm)]>
      results in
  let tokens := tokenize_name (Some uname) ++ tokenize_name (Some local) in
  let results := <["contains_token" := VBool false]> results in
  let '(results, matched_tokens) := token_loop "contains_token" p_norm tokens (results, []) in
  let results := <["matched_tokens" := VList matched_tokens]> results in
  let rev_un := if PyStr.nonempty u_norm then PyStr.reverse u_norm else "" in
  let results :=
    <["reversed_username" :=
        VBool (PyStr.nonempty rev_un && PyStr.contains rev_un p_norm)]> results in
  let p_deleet := normalize_alnum (Some (deleet (Some pwd))) in
  let results :=
    <["deleet_contains_username" :=
        VBool (PyStr.nonempty u_norm && PyStr.contains u_norm p_deleet)]> results in
  let results := <["deleet_contains_token" := VBool false]> results in
  let '(results, matched_deleet_tokens) :=
    token_loop "deleet_contains_token" p_deleet tokens (results, []) in
  let results := <["matched_deleet_tokens" := VList matched_deleet_tokens]> results in
  mret results.

(** ** Aggregation *)

(** [collections.Counter]: a missing key reads as 0. *)
Definition counter_get (counts : gmap string Z) (k : string) : Z :=
  default 0 (counts !! k).

(** [counts[k] += 1] *)
Definition counter_incr (k : string) (counts : gmap string Z) : gmap string Z :=
  <[k := counter_get counts k + 1]> counts.

Definition priority_keys : list string :=
  ["exact_username"; "exact_email"; "contains_username"; "contains_localpart";
   "contains_token"; "deleet_contains_username"; "deleet_contains_token";
   "reversed_username"].

(** The inner loop of [analyze_relations] over [priority_keys]: the first key
    whose flag is true becomes [primary], its counter is incremented, and the
    loop breaks. *)
Fixpoint select_primary (flags : gmap string PyVal) (keys : list string)
    (counts : gmap string Z) : option string * gmap string Z :=
  match keys with
  | [] => (None, counts)
  | k :: keys' =>
      if truthy (flags !! k) then (Some k, counter_incr k counts)
      else select_primary flags keys' counts
  end.

(** The outer loop over the records, on [counts] and [matches]. *)
Fixpoint analyze_loop (records : list record) (counts : gmap string Z)
    (matches : list (record * option string * gmap string PyVal))
    : result (gmap string Z * list (record * option string * gmap string PyVal)) :=
  match records with
  | [] => Ok (counts, matches)
  | rec :: records' =>
      flags ← detect_relations rec;
      let '(primary, counts) := select_primary flags priority_keys counts in
      let counts :=
        match primary with
        | None => counter_incr "no_relation" counts
        | Some _ => counter_incr "related" counts
        end in
      analyze_loop records' counts (matches ++ [(rec, primary, flags)])
  end.

(** Python numbers: the percentages are the [int] 0 or a [float]. *)
Inductive PyNum : Type :=
  | PyInt (z : Z)
  | PyFloat (f : float).

(** [float(z)], exact for the counts this program can reach (below 2^53). *)
Definition py_float (z : Z) : float := PrimFloat.of_uint63 (Uint63.of_Z z).

(** [a / b] on integers: true division, [ZeroDivisionError] at [b = 0]. *)
Definition py_truediv (a b : Z) : result float :=
  if b =? 0 then Raise ZeroDivisionError
  else Ok (PrimFloat.div (py_float a) (py_float b)).

(** [count / total * 100 if total else 0] *)
Definition percentage (count total : Z) : result PyNum :=
  if negb (total =? 0) then
    q ← py_truediv count total;
    mret (PyFloat (PrimFloat.mul q (py_float 100)))
  else mret (PyInt 0).

Record Summary : Type := {
  total : Z;
  related : Z;
  no_relation : Z;
  related_pct : PyNum;
  no_relation_pct : PyNum;
  detail : list (string * Z)
}.

(** The values [analyze_relations] computes before it writes or draws
    anything (lines 205-233), as the summary it returns holds them. *)
Definition compute_summary (records : list record) : result Summary :=
  let total := Z.of_nat (length records) in
  '(counts, matches) ← analyze_loop records ∅ [];
  let related := counter_get counts "related" in
  let no_relation := counter_get counts "no_relation" in
  related_pct ← percentage related total;
  no_relation_pct ← percentage no_relation total;
  let detail := (λ k, (k, counter_get counts k)) <$> priority_keys in
  mret {| total := total; related := related; no_relation := no_relation;
          related_pct := related_pct; no_relation_pct := no_relation_pct;
          detail := detail |}.

(** [plt.pie(sizes, ...)] of matplotlib, as far as it can fail: a negative
    size is refused, and the sizes are divided by their sum, so that with a
    sum of 0 the wedges cannot be drawn; both raise [ValueError]. *)
Definition plt_pie (sizes : list Z) : result unit :=
  if existsb (λ x, x <? 0) sizes then Raise ValueError
  else if foldr Z.add 0 sizes =? 0 then Raise ValueError
  else Ok tt.

(** [analyze_relations]: the values of the summary, then the example lists,
    the CSV and the report (of which [examples_loop] and [csv_rows] below are
    the contents; writing them is outside the model), then the pie chart of
    [related] against [no_relation], then the summary is returned. *)
Definition analyze_relations (records : list record) : result Summary :=
  summary ← compute_summary records;
  _ ← plt_pie [related summary; no_relation summary];
  mret summary.

(** The primary relation of one record, as [analyze_relations] selects it. *)
Definition primary_relation (rec : record) : result (option string) :=
  flags ← detect_relations rec;
  mret (select_primary flags priority_keys ∅).1.

(** ** Notions used by the statements *)

(** The test of the two token loops. *)
Definition token_hit (hay t : string) : bool :=
  PyStr.nonempty t && PyStr.contains t hay.

(** The local part of an address, as [detect_relations] reads it. *)
Definition local_part (email : string) : string :=
  if PyStr.has_char "@" email then hd "" (PyStr.split "@" email) else "".

(** The strings [detect_relations] compares, as functions of the record. *)
Definition uname_of (rec : record) : string := py_or_empty (username rec).
Definition email_of (rec : record) : string := py_or_empty (email rec).
Definition pwd_of (rec : record) : string := py_or_empty (password rec).
Definition u_norm (rec : record) : string := normalize_alnum (Some (uname_of rec)).
Definition e_norm (rec : record) : string := normalize_alnum (Some (email_of rec)).
Definition p_norm (rec : record) : string := normalize_alnum (Some (pwd_of rec)).
Definition local_norm (rec : record) : string :=
  normalize_alnum (Some (local_part (email_of rec))).
Definition rev_un (rec : record) : string :=
  if PyStr.nonempty (u_norm rec) then PyStr.reverse (u_norm rec) else "".
Definition p_deleet (rec : record) : string :=
  normalize_alnum (Some (deleet (Some (pwd_of rec)))).
Definition tokens_of (rec : record) : list string :=
  tokenize_name (Some (uname_of rec)) ++
  tokenize_name (Some (local_part (email_of rec))).

(** What [detect_relations] returns, with the two loops in closed form. *)
Definition relation_flags (rec : record) : gmap string PyVal :=
  let u := u_norm rec in
  let p := p_norm rec in
  <["matched_deleet_tokens" :=
      VList (List.filter (token_hit (p_deleet rec)) (tokens_of rec))]> (
  <["deleet_contains_token" :=
      VBool (existsb (token_hit (p_deleet rec)) (tokens_of rec))]> (
  <["deleet_contains_username" :=
      VBool (PyStr.nonempty u && PyStr.contains u (p_deleet rec))]> (
  <["reversed_username" :=
      VBool (PyStr.nonempty (rev_un rec) && PyStr.contains (rev_un rec) p)]> (
  <["matched_tokens" := VList (List.filter (token_hit p) (tokens_of rec))]> (
  <["contains_token" := VBool (existsb (token_hit p) (tokens_of rec))]> (
  <["contains_localpart" :=
      VBool (PyStr.nonempty (local_norm rec) && PyStr.contains (local_norm rec) p)]> (
  <["endswith_username" := VBool (PyStr.nonempty u && PyStr.endswith p u)]> (
  <["startswith_username" := VBool (PyStr.nonempty u && PyStr.startswith p u)]> (
  <["contains_username" := VBool (PyStr.nonempty u && PyStr.contains u p)]> (
  <["exact_email" :=
      VBool (PyStr.nonempty (e_norm rec) && bool_decide (p = e_norm rec))]> (
  <["exact_username" := VBool (PyStr.nonempty u && bool_decide (p = u))]> ∅))))))))))).

(** No character of [s] is in [[A-Za-z0-9]]. *)
Definition no_alnum (s : string) : bool :=
  PyStr.all (λ c, negb (PyStr.is_alnum c)) s.

(** The six predicates that refer to the username. *)
Definition username_flags_false (flags : gmap string PyVal) : Prop :=
  flags !! "exact_username" = Some (VBool false) ∧
  flags !! "contains_username" = Some (VBool false) ∧
  flags !! "startswith_username" = Some (VBool false) ∧
  flags !! "endswith_username" = Some (VBool false) ∧
  flags !! "reversed_username" = Some (VBool false) ∧
  flags !! "deleet_contains_username" = Some (VBool false).

(** Every predicate false, and no token matched. *)
Definition all_flags_false (flags : gmap string PyVal) : Prop :=
  username_flags_false flags ∧
  flags !! "exact_email" = Some (VBool false) ∧
  flags !! "contains_localpart" = Some (VBool false) ∧
  flags !! "contains_token" = Some (VBool false) ∧
  flags !! "deleet_contains_token" = Some (VBool false) ∧
  flags !! "matched_tokens" = Some (VList []) ∧
  flags !! "matched_deleet_tokens" = Some (VList []).

(** The record [rec] with its username replaced by [x]. *)
Definition with_username (rec : record) (x : option string) : record :=
  {| username := x; email := email rec; password := password rec; src := src rec |}.

(** The record of the specification's token example. *)
Definition john_smith : record :=
  {| username := Some "john.smith99"; email := Some "";
     password := Some "smith2024"; src := Some "plaintxt_yahoo.txt" |}.

(** The statement of C2 as the specification words it. *)
Definition john_smith_contains_token : Prop :=
  "john" ∈ tokens_of john_smith ∧
  "smith" ∈ tokens_of john_smith ∧
  ("99" ∉ tokens_of john_smith) ∧
  ∃ flags matched,
    detect_relations john_smith = Ok flags ∧
    flags !! "contains_token" = Some (VBool true) ∧
    flags !! "matched_tokens" = Some (VList matched) ∧
    "smith" ∈ matched.

(** The statement of C3 as the specification words it. *)
Definition both_one_and_bang_to_l : Prop :=
  deleet (Some "1") = "l" ∧ deleet (Some "!") = "l".

(** [sum(values)] *)
Definition py_sum (values : list Z) : Z := foldr Z.add 0 values.

(** The sum of the counters of a list of keys. *)
Definition key_sum (keys : list string) (counts : gmap string Z) : Z :=
  py_sum (counter_get counts <$> keys).

(** The two tallies the loop maintains. *)
Definition tally (counts : gmap string Z) : Z :=
  counter_get counts "related" + counter_get counts "no_relation".

(** [related] minus the sum of the counters of the eight labels. *)
Definition unlabelled (counts : gmap string Z) : Z :=
  counter_get counts "related" - key_sum priority_keys counts.

(** The value of a percentage. *)
Definition percentage_value (count total : Z) : PyNum :=
  if total =? 0 then PyInt 0
  else PyFloat (PrimFloat.mul (PrimFloat.div (py_float count) (py_float total))
                              (py_float 100)).

(** The entry [analyze_relations] keeps for one record. *)
Definition classified (rec : record) : record * option string * gmap string PyVal :=
  (rec, (select_primary (relation_flags rec) priority_keys ∅).1, relation_flags rec).

(** ** Further code: parsing, examples, CSV rows, and notions for their
    properties *)

(** [''.join(pieces)] *)
Definition str_concat (pieces : list string) : string :=
  foldr String.append "" pieces.

(** A lower-case letter or the digit 8. *)
Definition letter_or_8 (c : ascii) : bool :=
  PyStr.is_lower_az c || bool_decide (c = "8"%char).

(** Not a digit of [0-9], or the digit 8. *)
Definition no_digit_but_8 (c : ascii) : bool :=
  negb (PyStr.is_digit09 c) || bool_decide (c = "8"%char).

(** The number of records whose primary relation passes [test]. *)
Definition count_records (test : option string → bool) (records : list record) : Z :=
  Z.of_nat (length (List.filter
    (λ rec, match primary_relation rec with
            | Ok primary => test primary
            | Raise _ => false
            end) records)).

(** [primary is None] *)
Definition is_none (primary : option string) : bool :=
  match primary with None => true | Some _ => false end.

(** [primary == k] *)
Definition is_label (k : string) (primary : option string) : bool :=
  bool_decide (primary = Some k).

(** [primary or 'no_relation'] *)
Definition label_of (primary : option string) : string :=
  match primary with
  | Some k => if PyStr.nonempty k then k else "no_relation"
  | None => "no_relation"
  end.

(** [examples[key]] on a [defaultdict(list)]: a missing key reads as []. *)
Definition examples_get (examples : gmap string (list record)) (key : string)
    : list record :=
  default [] (examples !! key).

(** The loop that keeps at most ten example records per label; the entry
    appended is a dict with the four fields of the record. *)
Definition examples_loop
    (matches : list (record * option string * gmap string PyVal))
    (examples : gmap string (list record)) : gmap string (list record) :=
  foldl (λ examples m,
           let key := label_of m.1.2 in
           if (length (examples_get examples key) <? 10)%nat
           then <[key := examples_get examples key ++
                          [{| username := username m.1.1; email := email m.1.1;
                              password := password m.1.1; src := src m.1.1 |}]]>
                  examples
           else examples)
        examples matches.

(** The records of [matches] filed under [key]. *)
Definition records_labelled (key : string)
    (matches : list (record * option string * gmap string PyVal)) : list record :=
  (λ m, m.1.1) <$> List.filter (λ m, bool_decide (label_of m.1.2 = key)) matches.

(** The keys of the dict of [detect_relations] in insertion order, which is
    the order [flags.items()] walks them in. *)
Definition flag_order : list string :=
  ["exact_username"; "exact_email"; "contains_username"; "startswith_username";
   "endswith_username"; "contains_localpart"; "contains_token"; "matched_tokens";
   "reversed_username"; "deleet_contains_username"; "deleet_contains_token";
   "matched_deleet_tokens"].

(** [[k for k,v in flags.items() if v and k not in ('matched_tokens',
    'matched_deleet_tokens')]] *)
Definition true_flags (flags : gmap string PyVal) : list string :=
  List.filter
    (λ k, truthy (flags !! k) &&
          negb (bool_decide (k ∈ ["matched_tokens"; "matched_deleet_tokens"])))
    flag_order.

(** [flags.get(key) or []] *)
Definition flag_list (flags : gmap string PyVal) (key : string) : list string :=
  match flags !! key with
  | Some (VList l) => l
  | _ => []
  end.

(** A field as [csv.writer] writes it: [None] becomes the empty string. *)
Definition csv_field (x : option string) : string := default "" x.

Definition csv_header : list string :=
  ["src"; "username"; "email"; "password"; "primary_relation"; "flags";
   "matched_tokens"; "matched_deleet_tokens"].

(** The rows handed to [csv.writer]: the header, then one row for each match
    whose primary relation is not [None]. *)
Definition csv_rows (matches : list (record * option string * gmap string PyVal))
    : list (list string) :=
  csv_header ::
  omap (λ m, match m.1.2 with
             | Some primary =>
                 Some [csv_field (src m.1.1); csv_field (username m.1.1);
                       csv_field (email m.1.1); csv_field (password m.1.1);
                       primary;
                       String.concat ";" (true_flags m.2);
                       String.concat "," (flag_list m.2 "matched_tokens");
                       String.concat "," (flag_list m.2 "matched_deleet_tokens")]
             | None => None
             end) matches.

(** [s[:-1]] *)
Fixpoint drop_last (s : string) : string :=
  match s with
  | EmptyString => EmptyString
  | String c s' =>
      match s' with
      | EmptyString => EmptyString
      | String _ _ => String c (drop_last s')
      end
  end.

(** [s[1:-1]] *)
Definition slice_1_m1 (s : string) : string :=
  match s with
  | EmptyString => EmptyString
  | String _ s' => drop_last s'
  end.

(** The double and the single quote characters. *)
Definition dquote : ascii := "034"%char.
Definition squote : ascii := "039"%char.

(** [s.startswith(q) and s.endswith(q)] for a one-character [q]. *)
Definition wrapped_in (q : ascii) (s : string) : bool :=
  PyStr.startswith s (String q "") && PyStr.endswith s (String q "").

Definition strip_quotes (s : option string) : option string :=
  match s with
  | None => None
  | Some s0 =>
      if negb (PyStr.nonempty s0) then s
      else
        let s1 := PyStr.strip s0 in
        if wrapped_in dquote s1 || wrapped_in squote s1 then Some (slice_1_m1 s1)
        else Some s1
  end.

(** [parts[-1] if parts else ""] *)
Definition last_or_empty (parts : list string) : string :=
  default "" (last parts).

(** [parts[i] if len(parts) > i else ""] *)
Definition nth_or_empty (parts : list string) (i : nat) : string :=
  default "" (parts !! i).

Definition extract_yahoo_fields (line : string)
    : option string * option string * option string :=
  let parts := PyStr.strip <$> PyStr.split ":" line in
  if (3 <=? length parts)%nat then
    let username := nth_or_empty parts 1 in
    let password := last_or_empty parts in
    let email := if PyStr.has_char "@" username then username else "" in
    (strip_quotes (Some username), strip_quotes (Some email),
     strip_quotes (Some password))
  else (None, None, None).

Definition extract_csdn_fields (line : string)
    : result (option string * option string * option string) :=
  let parts := PyStr.strip <$> PyStr.split "#" line in
  if (3 <=? length parts)%nat then
    username ← py_index parts 0;
    password ← py_index parts 1;
    email ← py_index parts 2;
    mret (strip_quotes (Some username), strip_quotes (Some email),
          strip_quotes (Some password))
  else mret (None, None, None).

(** [line.rstrip(chars)] for the characters that pass [drop]. *)
Fixpoint rstrip_with (drop : ascii → bool) (s : string) : string :=
  match s with
  | EmptyString => EmptyString
  | String c s' =>
      match rstrip_with drop s' with
      | EmptyString => if drop c then EmptyString else String c EmptyString
      | r => String c r
      end
  end.

(** The set of ['\n\r']. *)
Definition is_newline (c : ascii) : bool :=
  bool_decide (c = "010"%char) || bool_decide (c = "013"%char).

(** The class [[\t ]]. *)
Definition is_tab_or_space (c : ascii) : bool :=
  bool_decide (c = "009"%char) || bool_decide (c = " "%char).

(** [re.split] on the maximal runs of the characters that pass [is_sep];
    [in_sep] and the head of the result are as in [PyStr.re_split_go]. *)
Fixpoint re_split_on (is_sep : ascii → bool) (in_sep : bool) (s : string)
    : list string :=
  match s with
  | EmptyString => [EmptyString]
  | String c s' =>
      if is_sep c then
        if in_sep then re_split_on is_sep true s'
        else EmptyString :: re_split_on is_sep true s'
      else
        match re_split_on is_sep false s' with
        | p :: ps => String c p :: ps
        | [] => [String c EmptyString]
        end
  end.

(** The fields of a line that is neither in the csdn nor in the yahoo
    layout: the fallback branch of [parse_file_collect]. *)
Definition fallback_fields (line : string)
    : result (option string * option string * option string) :=
  let parts :=
    PyStr.strip <$>
      List.filter (λ p, PyStr.nonempty (PyStr.strip p))
                  (re_split_on is_tab_or_space false line) in
  if (2 <=? length parts)%nat then
    first ← py_index parts 0;
    if PyStr.has_char "@" first then
      email ← py_index parts 0;
      pwd ← py_index parts 1;
      part0 ← py_index parts 0;
      uname ← py_index (PyStr.split "@" part0) 0;
      mret (Some uname, Some email, Some pwd)
    else
      uname ← py_index parts 0;
      pwd ← py_index parts 1;
      mret (Some uname, None, Some pwd)
  else
    pwd ← py_index parts 0;
    mret (None, None, Some pwd).

(** The body of the loop of [parse_file_collect] on one line of the file:
    [None] when the line is skipped, otherwise the record appended.  [source]
    is [os.path.basename(file_path)]. *)
Definition parse_line (source : string) (line : string) : result (option record) :=
  let line := rstrip_with is_newline line in
  if negb (PyStr.nonempty (PyStr.strip line)) then mret None
  else
    '(uname, email, pwd) ←
      (if PyStr.has_char "#" line && PyStr.has_char "@" line
       then extract_csdn_fields line
       else if PyStr.has_char ":" line then mret (extract_yahoo_fields line)
       else fallback_fields line);
    uname ←
      match uname, email with
      | None, Some e =>
          if PyStr.nonempty e && PyStr.has_char "@" e
          then u ← py_index (PyStr.split "@" e) 0; mret (Some u)
          else mret uname
      | _, _ => mret uname
      end;
    mret (Some {| username := Some (py_or_empty uname);
                  email := Some (py_or_empty email);
                  password := Some (py_or_empty pwd);
                  src := Some source |}).

(** The loop of [parse_file_collect] over the lines of the file; an
    exception ends the loop and the records read so far are returned. *)
Fixpoint parse_lines (source : string) (lines : list string)
    (records : list record) : list record :=
  match lines with
  | [] => records
  | line :: lines' =>
      match parse_line source line with
      | Ok (Some rec) => parse_lines source lines' (records ++ [rec])
      | Ok None => parse_lines source lines' records
      | Raise _ => records
      end
  end.

(** The number of occurrences of [sep] in [s]: [s.count(sep)]. *)
Fixpoint count_char (sep : ascii) (s : string) : nat :=
  match s with
  | EmptyString => 0
  | String c s' => (if decide (c = sep) then 1 else 0) + count_char sep s'
  end.

(** The shapes the three layouts return: never a username missing beside
    an email. *)
Definition fields_shape (fields : option string * option string * option string)
    : Prop :=
  match fields with
  | (None, Some _, _) => False
  | _ => True
  end.

(** Whether the loop skips the line. *)
Definition is_blank (line : string) : bool :=
  negb (PyStr.nonempty (PyStr.strip (rstrip_with is_newline line))).

(** The record of a line from which no field could be read. *)
Definition empty_record (source : string) : record :=
  {| username := Some ""; email := Some ""; password := Some "";
     src := Some source |}.

(** The record with its password in lower case. *)
Definition lower_password (rec : record) : record :=
  {| username := username rec; email := email rec;
     password := PyStr.lower <$> password rec; src := src rec |}.

(** No character of [s] is white space. *)
Definition no_space (s : string) : bool :=
  PyStr.all (λ c, negb (PyStr.is_space c)) s.

(** * Properties *)

(** ** Characters and strings *)

Ltac each_char c := destruct c as [[] [] [] [] [] [] [] []].

Lemma lower_char_fixes_lower_alnum (c : ascii) :
  PyStr.is_lower_alnum c = true → PyStr.lower_char c = c.
Proof. each_char c; vm_compute; congruence. Qed.

Lemma lower_alnum_of_lower_char (c : ascii) :
  PyStr.is_lower_alnum (PyStr.lower_char c) = PyStr.is_alnum c.
Proof. each_char c; reflexivity. Qed.

Lemma all_filter (p : ascii → bool) (s : string) :
  PyStr.all p (PyStr.filter p s) = true.
Proof.
  induction s as [|c s IH]; simpl; [done|].
  destruct (p c) eqn:Hc; simpl; [|done].
  by rewrite Hc, IH.
Qed.

Lemma filter_all_id (p : ascii → bool) (s : string) :
  PyStr.all p s = true → PyStr.filter p s = s.
Proof.
  induction s as [|c s IH]; simpl; [done|].
  intros [Hc Hs]%andb_prop. rewrite Hc. by f_equal; apply IH.
Qed.

Lemma lower_all_id (s : string) :
  PyStr.all PyStr.is_lower_alnum s = true → PyStr.lower s = s.
Proof.
  induction s as [|c s IH]; simpl; [done|].
  intros [Hc Hs]%andb_prop. unfold PyStr.lower in *; simpl.
  by rewrite lower_char_fixes_lower_alnum, IH.
Qed.

Lemma filter_none (p : ascii → bool) (s : string) :
  PyStr.all (λ c, negb (p c)) s = true → PyStr.filter p s = "".
Proof.
  induction s as [|c s IH]; simpl; [done|].
  intros [Hc Hs]%andb_prop. apply negb_true_iff in Hc. rewrite Hc. auto.
Qed.

Lemma filter_lower_alnum_lower (s : string) :
  PyStr.filter PyStr.is_lower_alnum (PyStr.lower s) =
  PyStr.lower (PyStr.filter PyStr.is_alnum s).
Proof.
  induction s as [|c s IH]; [done|].
  unfold PyStr.lower in *; simpl.
  rewrite lower_alnum_of_lower_char.
  destruct (PyStr.is_alnum c); simpl; by rewrite IH.
Qed.

Lemma prefix_refl (s : string) : String.prefix s s = true.
Proof.
  induction s as [|c s IH]; simpl; [done|].
  by destruct (ascii_dec c c).
Qed.

Lemma contains_refl (s : string) : PyStr.contains s s = true.
Proof.
  destruct s as [|c s]; [done|].
  change (PyStr.contains (String c s) (String c s))
    with (String.prefix (String c s) (String c s)
          || PyStr.contains (String c s) s).
  by rewrite prefix_refl.
Qed.

Lemma nonempty_false (s : string) : PyStr.nonempty s = false ↔ s = "".
Proof. by destruct s. Qed.

(** ** Normalizer *)

Lemma normalize_alnum_all (s : option string) :
  PyStr.all PyStr.is_lower_alnum (normalize_alnum s) = true.
Proof. destruct s as [s|]; simpl; [apply all_filter | done]. Qed.

Lemma normalize_alnum_or_empty (x : option string) :
  normalize_alnum (Some (py_or_empty x)) = normalize_alnum x.
Proof. by destruct x as [[|c s]|]. Qed.

(** C8: [normalize_alnum] is idempotent, and it erases case and punctuation:
    "AbC!2" and "abc2" have the same normal form, "abc2". *)
Theorem normalize_alnum_idempotent :
  (∀ s : option string,
     normalize_alnum (Some (normalize_alnum s)) = normalize_alnum s) ∧
  normalize_alnum (Some "AbC!2") = normalize_alnum (Some "abc2") ∧
  normalize_alnum (Some "AbC!2") = "abc2".
Proof.
  split; [|by vm_compute].
  intros s. pose proof (normalize_alnum_all s) as Hall.
  unfold normalize_alnum at 1.
  by rewrite (lower_all_id _ Hall), (filter_all_id _ _ Hall).
Qed.

(** ** De-obfuscator *)

Lemma deleet_char_not_key (c : ascii) :
  LEET_MAP !! PyStr.lower_char (deleet_char c) = None.
Proof. each_char c; vm_compute; reflexivity. Qed.

Lemma lower_char_idempotent (c : ascii) :
  PyStr.lower_char (PyStr.lower_char c) = PyStr.lower_char c.
Proof. each_char c; reflexivity. Qed.

Lemma deleet_char_stable (c : ascii) :
  PyStr.lower_char (deleet_char (PyStr.lower_char (deleet_char c))) =
  PyStr.lower_char (deleet_char c).
Proof.
  unfold deleet_char at 1. rewrite deleet_char_not_key.
  apply lower_char_idempotent.
Qed.

Lemma deleet_nonempty (s : string) :
  deleet (Some s) = PyStr.lower (PyStr.map deleet_char s).
Proof. by destruct s. Qed.

(** C10: [deleet] is idempotent; no character it produces is a key of
    [LEET_MAP]. *)
Theorem deleet_idempotent :
  (∀ s : option string, deleet (Some (deleet s)) = deleet s) ∧
  (∀ c : ascii, LEET_MAP !! PyStr.lower_char (deleet_char c) = None).
Proof.
  split; [|apply deleet_char_not_key].
  intros [s|]; [|done].
  rewrite !deleet_nonempty. unfold PyStr.lower.
  induction s as [|c s IH]; simpl; [done|].
  by rewrite deleet_char_stable, IH.
Qed.

(** C3, refuted: the table sends '!' to 'i', not to 'l'. *)
Lemma both_one_and_bang_to_l_fails : ¬ both_one_and_bang_to_l.
Proof. intros [_ H]. vm_compute in H. discriminate H. Qed.

(** C3, amended: the table maps '1' to 'l' and '!' to 'i', and so does
    [deleet] on the one-character strings. *)
Theorem deleet_one_and_bang :
  LEET_MAP !! "1"%char = Some "l"%char ∧
  LEET_MAP !! "!"%char = Some "i"%char ∧
  deleet (Some "1") = "l" ∧
  deleet (Some "!") = "i".
Proof. by vm_compute. Qed.

(** ** Relation classifier *)

Lemma token_loop_closed key hay tokens (m : gmap string PyVal) acc :
  token_loop key hay tokens (m, acc) =
  (if existsb (token_hit hay) tokens then <[key := VBool true]> m else m,
   acc ++ List.filter (token_hit hay) tokens).
Proof.
  unfold token_loop.
  revert m acc; induction tokens as [|t ts IH]; intros m acc; simpl.
  { by rewrite app_nil_r. }
  fold (token_hit hay t). destruct (token_hit hay t); simpl.
  - rewrite IH, insert_insert_eq, <- app_assoc. simpl.
    by destruct (existsb _ ts).
  - apply IH.
Qed.

Lemma token_loop_from_false key hay tokens (m : gmap string PyVal) :
  token_loop key hay tokens (<[key := VBool false]> m, []) =
  (<[key := VBool (existsb (token_hit hay) tokens)]> m,
   List.filter (token_hit hay) tokens).
Proof.
  rewrite token_loop_closed. simpl.
  destruct (existsb _ tokens); [by rewrite insert_insert_eq | done].
Qed.

Lemma split_cons sep s : ∃ p ps, PyStr.split sep s = p :: ps.
Proof.
  induction s as [|c s (p & ps & IH)]; simpl; [by eauto|].
  destruct (decide (c = sep)); [by eauto|]. rewrite IH. eauto.
Qed.

Lemma local_part_ok email :
  (if PyStr.has_char "@" email
   then py_index (PyStr.split "@" email) 0
   else Ok "") = Ok (local_part email).
Proof.
  unfold local_part. destruct (PyStr.has_char _ _); [|done].
  by destruct (split_cons "@" email) as (p & ps & ->).
Qed.

(** [detect_relations] never raises. *)
Lemma detect_relations_ok (rec : record) :
  detect_relations rec = Ok (relation_flags rec).
Proof.
  unfold detect_relations. rewrite local_part_ok. simpl.
  rewrite !token_loop_from_false. reflexivity.
Qed.

(** Reading one flag of [relation_flags]. *)
Ltac flag_lookup :=
  unfold relation_flags; cbv zeta;
  repeat (rewrite lookup_insert_ne by done);
  first [rewrite lookup_insert_eq | rewrite lookup_empty]; reflexivity.

Lemma lookup_exact_username rec :
  relation_flags rec !! "exact_username" =
  Some (VBool (PyStr.nonempty (u_norm rec) && bool_decide (p_norm rec = u_norm rec))).
Proof. flag_lookup. Qed.

Lemma lookup_exact_email rec :
  relation_flags rec !! "exact_email" =
  Some (VBool (PyStr.nonempty (e_norm rec) && bool_decide (p_norm rec = e_norm rec))).
Proof. flag_lookup. Qed.

Lemma lookup_contains_username rec :
  relation_flags rec !! "contains_username" =
  Some (VBool (PyStr.nonempty (u_norm rec) && PyStr.contains (u_norm rec) (p_norm rec))).
Proof. flag_lookup. Qed.

Lemma lookup_startswith_username rec :
  relation_flags rec !! "startswith_username" =
  Some (VBool (PyStr.nonempty (u_norm rec) && PyStr.startswith (p_norm rec) (u_norm rec))).
Proof. flag_lookup. Qed.

Lemma lookup_endswith_username rec :
  relation_flags rec !! "endswith_username" =
  Some (VBool (PyStr.nonempty (u_norm rec) && PyStr.endswith (p_norm rec) (u_norm rec))).
Proof. flag_lookup. Qed.

Lemma lookup_contains_localpart rec :
  relation_flags rec !! "contains_localpart" =
  Some (VBool (PyStr.nonempty (local_norm rec)
               && PyStr.contains (local_norm rec) (p_norm rec))).
Proof. flag_lookup. Qed.

Lemma lookup_contains_token rec :
  relation_flags rec !! "contains_token" =
  Some (VBool (existsb (token_hit (p_norm rec)) (tokens_of rec))).
Proof. flag_lookup. Qed.

Lemma lookup_matched_tokens rec :
  relation_flags rec !! "matched_tokens" =
  Some (VList (List.filter (token_hit (p_norm rec)) (tokens_of rec))).
Proof. flag_lookup. Qed.

Lemma lookup_reversed_username rec :
  relation_flags rec !! "reversed_username" =
  Some (VBool (PyStr.nonempty (rev_un rec) && PyStr.contains (rev_un rec) (p_norm rec))).
Proof. flag_lookup. Qed.

Lemma lookup_deleet_contains_username rec :
  relation_flags rec !! "deleet_contains_username" =
  Some (VBool (PyStr.nonempty (u_norm rec) && PyStr.contains (u_norm rec) (p_deleet rec))).
Proof. flag_lookup. Qed.

Lemma lookup_deleet_contains_token rec :
  relation_flags rec !! "deleet_contains_token" =
  Some (VBool (existsb (token_hit (p_deleet rec)) (tokens_of rec))).
Proof. flag_lookup. Qed.

Lemma lookup_matched_deleet_tokens rec :
  relation_flags rec !! "matched_deleet_tokens" =
  Some (VList (List.filter (token_hit (p_deleet rec)) (tokens_of rec))).
Proof. flag_lookup. Qed.

(** *** Strings without alphanumeric characters *)

Lemma filter_empty_all (q : ascii → bool) (s : string) :
  PyStr.filter q s = "" → PyStr.all (λ c, negb (q c)) s = true.
Proof.
  induction s as [|c s IH]; simpl; [done|].
  destruct (q c); [done | auto].
Qed.

Lemma normalize_empty_iff (s : string) :
  normalize_alnum (Some s) = "" ↔ no_alnum s = true.
Proof.
  unfold normalize_alnum, no_alnum. rewrite filter_lower_alnum_lower. split.
  - intros H. apply filter_empty_all.
    by destruct (PyStr.filter PyStr.is_alnum s).
  - intros H. by rewrite filter_none.
Qed.

Lemma all_lstrip (q : ascii → bool) (s : string) :
  PyStr.all q s = true → PyStr.all q (PyStr.lstrip s) = true.
Proof.
  induction s as [|c s IH]; simpl; [done|].
  intros [Hc Hs]%andb_prop. destruct (PyStr.is_space c); [auto|].
  simpl. by rewrite Hc, Hs.
Qed.

Lemma all_rstrip (q : ascii → bool) (s : string) :
  PyStr.all q s = true → PyStr.all q (PyStr.rstrip s) = true.
Proof.
  induction s as [|c s IH]; simpl; [done|].
  intros [Hc Hs]%andb_prop. specialize (IH Hs).
  destruct (PyStr.rstrip s) as [|c' r].
  - destruct (PyStr.is_space c); simpl; [done | by rewrite Hc].
  - change (q c && PyStr.all q (String c' r) = true). by rewrite Hc, IH.
Qed.

Lemma re_split_no_alnum (b : bool) (s : string) :
  no_alnum s = true → Forall (λ piece, piece = "") (PyStr.re_split_go b s).
Proof.
  unfold no_alnum. revert b; induction s as [|c s IH]; intros b; simpl.
  { by repeat constructor. }
  intros [Hc Hs]%andb_prop. apply negb_true_iff in Hc. rewrite Hc.
  destruct b; [auto | constructor; auto].
Qed.

Lemma tokenize_name_no_alnum (s : string) :
  no_alnum s = true → tokenize_name (Some s) = [].
Proof.
  intros Hs. unfold tokenize_name.
  destruct (negb (PyStr.nonempty s)); [done|]. simpl.
  assert (Forall (λ piece, piece = "")
            (PyStr.re_split_nonalnum (PyStr.strip s))) as Hall.
  { apply re_split_no_alnum. by apply all_rstrip, all_lstrip. }
  induction Hall as [|piece pieces -> _ IH]; [done|]. simpl. apply IH.
Qed.

Lemma all_split (q : ascii → bool) (sep : ascii) (s : string) :
  PyStr.all q s = true → Forall (λ piece, PyStr.all q piece = true) (PyStr.split sep s).
Proof.
  induction s as [|c s IH]; simpl.
  { by repeat constructor. }
  intros [Hc Hs]%andb_prop. specialize (IH Hs).
  destruct (decide (c = sep)); [by constructor|].
  destruct IH as [|piece pieces Hp Hps]; constructor; simpl; auto.
  all: by rewrite Hc.
Qed.

Lemma local_part_no_alnum (mail : string) :
  no_alnum mail = true → no_alnum (local_part mail) = true.
Proof.
  intros H. unfold local_part. destruct (PyStr.has_char _ _); [|done].
  destruct (all_split _ "@" mail H); [done | by simpl].
Qed.

(** *** Priority selection *)

Lemma select_primary_spec (flags : gmap string PyVal) keys counts :
  match select_primary flags keys counts with
  | (Some k, counts') =>
      ∃ before after, keys = before ++ k :: after ∧
        Forall (λ k', truthy (flags !! k') = false) before ∧
        truthy (flags !! k) = true ∧ counts' = counter_incr k counts
  | (None, counts') =>
      Forall (λ k', truthy (flags !! k') = false) keys ∧ counts' = counts
  end.
Proof.
  induction keys as [|k keys IH]; simpl; [done|].
  destruct (truthy (flags !! k)) eqn:Hk.
  - by exists [], keys.
  - destruct (select_primary flags keys counts) as [[k1|] counts'].
    + destruct IH as (before & after & -> & Hb & Hk1 & ->).
      exists (k :: before), after. by repeat split; [constructor|..].
    + destruct IH as [Hall ->]. by split; [constructor|].
Qed.

Lemma select_primary_counts_irrelevant (flags : gmap string PyVal) keys c1 c2 :
  (select_primary flags keys c1).1 = (select_primary flags keys c2).1.
Proof.
  induction keys as [|k keys IH]; simpl; [done|].
  by destruct (truthy (flags !! k)).
Qed.

Lemma diagnostic_keys_not_priority (k : string) :
  k ∈ priority_keys → k ≠ "startswith_username" ∧ k ≠ "endswith_username".
Proof.
  unfold priority_keys. rewrite !elem_of_cons, elem_of_nil.
  intros H; split; intros ->; repeat destruct H as [H|H]; done.
Qed.

Lemma primary_relation_ok (rec : record) :
  primary_relation rec =
  Ok (select_primary (relation_flags rec) priority_keys ∅).1.
Proof. unfold primary_relation. by rewrite detect_relations_ok. Qed.

(** C1: the primary relation of a record is the first key of the priority
    list whose flag is true, and [None] when no flag of the list is true; it is
    never [startswith_username] nor [endswith_username]; so it is [None] or one
    of the eight keys. *)
Theorem primary_relation_priority (rec : record) :
  priority_keys =
    ["exact_username"; "exact_email"; "contains_username";
     "contains_localpart"; "contains_token"; "deleet_contains_username";
     "deleet_contains_token"; "reversed_username"] ∧
  ∃ flags primary,
    detect_relations rec = Ok flags ∧
    primary_relation rec = Ok primary ∧
    match primary with
    | Some k =>
        ∃ before after, priority_keys = before ++ k :: after ∧
          Forall (λ k', truthy (flags !! k') = false) before ∧
          truthy (flags !! k) = true
    | None => Forall (λ k', truthy (flags !! k') = false) priority_keys
    end ∧
    primary ≠ Some "startswith_username" ∧
    primary ≠ Some "endswith_username" ∧
    primary ∈ None :: (Some <$> priority_keys).
Proof.
  split; [done|].
  exists (relation_flags rec), (select_primary (relation_flags rec) priority_keys ∅).1.
  split; [apply detect_relations_ok|]. split; [apply primary_relation_ok|].
  pose proof (select_primary_spec (relation_flags rec) priority_keys ∅) as H.
  destruct (select_primary _ _ _) as [[k|] counts']; cbn [fst].
  - destruct H as (before & after & Hkeys & Hb & Hk & _).
    assert (k ∈ priority_keys) as Hin by (rewrite Hkeys; set_solver).
    split_and!.
    + by exists before, after.
    + intros [= ->]. by destruct (diagnostic_keys_not_priority _ Hin).
    + intros [= ->]. by destruct (diagnostic_keys_not_priority _ Hin).
    + right. by apply list_elem_of_fmap_2.
  - destruct H as [H _]. split_and!; [done..|]. left.
Qed.

(** *** Exact matches *)

(** C7: when [exact_username] is true so is [contains_username]; and when
    [exact_username] and [exact_email] are both true the primary relation is
    [exact_username]. *)
Theorem exact_username_precedes (rec : record) (flags : gmap string PyVal) :
  detect_relations rec = Ok flags →
  (flags !! "exact_username" = Some (VBool true) →
   flags !! "contains_username" = Some (VBool true)) ∧
  (flags !! "exact_username" = Some (VBool true) →
   flags !! "exact_email" = Some (VBool true) →
   primary_relation rec = Ok (Some "exact_username")).
Proof.
  rewrite detect_relations_ok. intros [= <-]. split.
  - rewrite lookup_exact_username, lookup_contains_username.
    intros [= [Hne Heq%bool_decide_eq_true]%andb_prop].
    by rewrite Hne, Heq, contains_refl.
  - intros Hu _. rewrite primary_relation_ok.
    unfold priority_keys, select_primary. by rewrite Hu.
Qed.

Lemma exact_username_precedes_witness :
  let rec := {| username := Some "bob@x.com"; email := Some "bob@x.com";
                password := Some "BobXcom"; src := Some "plaintxt_yahoo.txt" |} in
  relation_flags rec !! "exact_username" = Some (VBool true) ∧
  relation_flags rec !! "exact_email" = Some (VBool true) ∧
  relation_flags rec !! "contains_username" = Some (VBool true) ∧
  primary_relation rec = Ok (Some "exact_username").
Proof.
  intros rec.
  assert (relation_flags rec !! "exact_username" = Some (VBool true)) as Hu
    by (vm_compute; reflexivity).
  assert (relation_flags rec !! "exact_email" = Some (VBool true)) as He
    by (vm_compute; reflexivity).
  destruct (exact_username_precedes rec (relation_flags rec)
              (detect_relations_ok rec)) as [Hc Hp].
  exact (conj Hu (conj He (conj (Hc Hu) (Hp Hu He)))).
Defined.

(** *** Empty identity strings *)

Lemma username_flags_false_of_empty (rec : record) :
  u_norm rec = "" → username_flags_false (relation_flags rec).
Proof.
  intros Hu. unfold username_flags_false.
  rewrite lookup_exact_username, lookup_contains_username,
    lookup_startswith_username, lookup_endswith_username,
    lookup_reversed_username, lookup_deleet_contains_username.
  unfold rev_un. by rewrite Hu.
Qed.

Lemma tokens_of_empty (rec : record) :
  u_norm rec = "" → e_norm rec = "" → tokens_of rec = [].
Proof.
  unfold u_norm, e_norm, tokens_of.
  intros Hu%normalize_empty_iff He%normalize_empty_iff.
  by rewrite !tokenize_name_no_alnum by auto using local_part_no_alnum.
Qed.

Lemma local_norm_empty (rec : record) : e_norm rec = "" → local_norm rec = "".
Proof.
  unfold e_norm, local_norm. intros He%normalize_empty_iff.
  by apply normalize_empty_iff, local_part_no_alnum.
Qed.

Lemma all_flags_false_of_empty (rec : record) :
  u_norm rec = "" → e_norm rec = "" → all_flags_false (relation_flags rec).
Proof.
  intros Hu He. split; [by apply username_flags_false_of_empty|].
  rewrite lookup_exact_email, lookup_contains_localpart, lookup_contains_token,
    lookup_deleet_contains_token, lookup_matched_tokens,
    lookup_matched_deleet_tokens.
  by rewrite tokens_of_empty, local_norm_empty, He.
Qed.

Lemma select_primary_all_false (flags : gmap string PyVal) counts :
  all_flags_false flags → select_primary flags priority_keys counts = (None, counts).
Proof.
  intros ((H1 & H3 & _ & _ & H8 & H6) & H2 & H4 & H5 & H7 & _).
  unfold priority_keys, select_primary.
  by rewrite H1, H2, H3, H4, H5, H6, H7, H8.
Qed.

(** C5: the record with empty username, email and password has every
    predicate false and no primary relation.  For every record,
    [detect_relations] and the selection return without raising; an empty
    normalized username, email or local part makes the predicates on it false
    whatever the password is; and when both the username and the email
    normalize to the empty string every predicate is false. *)
Theorem empty_identity_never_matches :
  (∀ source,
     let rec := {| username := Some ""; email := Some "";
                   password := Some ""; src := source |} in
     ∃ flags, detect_relations rec = Ok flags ∧ all_flags_false flags ∧
              primary_relation rec = Ok None) ∧
  (∀ rec : record,
     ∃ flags primary,
       detect_relations rec = Ok flags ∧
       primary_relation rec = Ok primary ∧
       (u_norm rec = "" → username_flags_false flags) ∧
       (e_norm rec = "" → flags !! "exact_email" = Some (VBool false)) ∧
       (local_norm rec = "" → flags !! "contains_localpart" = Some (VBool false)) ∧
       (u_norm rec = "" → e_norm rec = "" →
        all_flags_false flags ∧ primary = None)).
Proof.
  split.
  - intros source rec. exists (relation_flags rec).
    assert (all_flags_false (relation_flags rec)) as Hall
      by by apply all_flags_false_of_empty.
    split_and!; [apply detect_relations_ok | done |].
    by rewrite primary_relation_ok, select_primary_all_false.
  - intros rec. eexists _, _.
    split; [apply detect_relations_ok|]. split; [apply primary_relation_ok|].
    split_and!.
    + apply username_flags_false_of_empty.
    + intros He. by rewrite lookup_exact_email, He.
    + intros Hl. by rewrite lookup_contains_localpart, Hl.
    + intros Hu He.
      assert (all_flags_false (relation_flags rec)) as Hall
        by by apply all_flags_false_of_empty.
      split; [done|]. by rewrite select_primary_all_false.
Qed.

Lemma empty_identity_never_matches_witness :
  let rec := {| username := Some "--"; email := None;
                password := Some ""; src := Some "www.csdn.net.sql" |} in
  u_norm rec = "" ∧ e_norm rec = "" ∧
  ∃ flags, detect_relations rec = Ok flags ∧ all_flags_false flags ∧
           primary_relation rec = Ok None.
Proof.
  intros rec.
  assert (u_norm rec = "") as Hu by reflexivity.
  assert (e_norm rec = "") as He by reflexivity.
  destruct (proj2 empty_identity_never_matches rec)
    as (flags & primary & Hd & Hp & _ & _ & _ & Hall).
  destruct (Hall Hu He) as [Hf Hnone].
  refine (conj Hu (conj He (ex_intro _ flags (conj Hd (conj Hf _))))).
  rewrite Hp. f_equal. exact Hnone.
Defined.

(** *** A username without alphanumeric characters *)

Lemma relation_flags_username (rec1 rec2 : record) :
  u_norm rec1 = u_norm rec2 →
  tokenize_name (Some (uname_of rec1)) = tokenize_name (Some (uname_of rec2)) →
  email rec1 = email rec2 → password rec1 = password rec2 →
  relation_flags rec1 = relation_flags rec2.
Proof.
  intros Hu Ht He Hp.
  unfold relation_flags, rev_un, tokens_of, local_norm, e_norm, p_deleet,
    p_norm, email_of, pwd_of.
  by rewrite Hu, Ht, He, Hp.
Qed.

(** C9: a username that is not empty but whose normal form is empty has no
    alphanumeric character and gives no token; the six predicates on the
    username are false; and the flags are those of the same record with the
    username absent ([None]) or empty. *)
Theorem username_without_alnum_is_absent (rec : record) (name : string) :
  username rec = Some name →
  name ≠ "" →
  normalize_alnum (Some name) = "" →
  no_alnum name = true ∧
  tokenize_name (Some name) = [] ∧
  ∃ flags,
    detect_relations rec = Ok flags ∧
    username_flags_false flags ∧
    detect_relations (with_username rec None) = Ok flags ∧
    detect_relations (with_username rec (Some "")) = Ok flags.
Proof.
  intros Hname Hne Hnorm.
  assert (no_alnum name = true) as Hno by by apply normalize_empty_iff.
  assert (tokenize_name (Some name) = []) as Htok
    by by apply tokenize_name_no_alnum.
  assert (uname_of rec = name) as Hun.
  { unfold uname_of. rewrite Hname. by destruct name. }
  assert (u_norm rec = "") as Hu by (unfold u_norm; by rewrite Hun).
  split_and!; [done..|].
  exists (relation_flags rec). rewrite !detect_relations_ok.
  split_and!; [done | by apply username_flags_false_of_empty | |];
    f_equal; symmetry; apply relation_flags_username; try done.
  all: first [by rewrite Hu | by rewrite Hun, Htok].
Qed.

Lemma username_without_alnum_is_absent_witness :
  let rec := {| username := Some "!!!"; email := Some "bob@x.com";
                password := Some "bob!!!"; src := Some "www.csdn.net.sql" |} in
  no_alnum "!!!" = true ∧
  tokenize_name (Some "!!!") = [] ∧
  ∃ flags,
    detect_relations rec = Ok flags ∧
    username_flags_false flags ∧
    detect_relations (with_username rec None) = Ok flags ∧
    detect_relations (with_username rec (Some "")) = Ok flags.
Proof.
  intros rec.
  apply (username_without_alnum_is_absent rec "!!!");
    [reflexivity | discriminate | reflexivity].
Defined.

(** *** The token example *)

Lemma tokens_of_john_smith : tokens_of john_smith = ["john"; "smith99"].
Proof. by vm_compute. Qed.

(** C2, refuted: digits are alphanumeric, so the tokenizer keeps "smith99"
    whole, "smith" is not a token, and no token occurs in "smith2024". *)
Lemma john_smith_contains_token_fails : ¬ john_smith_contains_token.
Proof.
  intros (_ & Hsmith & _). rewrite tokens_of_john_smith in Hsmith.
  rewrite !elem_of_cons, elem_of_nil in Hsmith.
  by destruct Hsmith as [?|[?|?]].
Qed.

(** C2, amended: the tokens of "john.smith99" are "john" and "smith99"; with
    the password "smith2024" no token matches, [contains_token] is false and
    there is no primary relation. *)
Theorem john_smith_tokens :
  tokenize_name (Some "john.smith99") = ["john"; "smith99"] ∧
  tokens_of john_smith = ["john"; "smith99"] ∧
  ∃ flags,
    detect_relations john_smith = Ok flags ∧
    flags !! "contains_token" = Some (VBool false) ∧
    flags !! "matched_tokens" = Some (VList []) ∧
    primary_relation john_smith = Ok None.
Proof.
  split; [by vm_compute|]. split; [apply tokens_of_john_smith|].
  exists (relation_flags john_smith).
  split; [apply detect_relations_ok|].
  rewrite lookup_contains_token, lookup_matched_tokens.
  by vm_compute.
Qed.

(** ** Aggregator *)

Lemma counter_get_incr_eq k counts :
  counter_get (counter_incr k counts) k = counter_get counts k + 1.
Proof. unfold counter_incr, counter_get at 1. by rewrite lookup_insert_eq. Qed.

Lemma counter_get_incr_ne k k' counts :
  k ≠ k' → counter_get (counter_incr k counts) k' = counter_get counts k'.
Proof.
  intros Hne. unfold counter_incr, counter_get at 1.
  by rewrite lookup_insert_ne.
Qed.

Lemma key_sum_cons k keys counts :
  key_sum (k :: keys) counts = counter_get counts k + key_sum keys counts.
Proof. reflexivity. Qed.

Lemma key_sum_incr_notin keys k counts :
  k ∉ keys → key_sum keys (counter_incr k counts) = key_sum keys counts.
Proof.
  induction keys as [|k' keys IH]; [done|].
  intros [Hne Hnotin]%not_elem_of_cons.
  by rewrite !key_sum_cons, counter_get_incr_ne, IH.
Qed.

Lemma key_sum_incr_in keys k counts :
  NoDup keys → k ∈ keys →
  key_sum keys (counter_incr k counts) = key_sum keys counts + 1.
Proof.
  intros Hnodup. induction Hnodup as [|k' keys Hnotin Hnodup IH]; intros Hin.
  { by apply elem_of_nil in Hin. }
  rewrite !key_sum_cons. apply elem_of_cons in Hin as [->|Hin].
  - rewrite counter_get_incr_eq, key_sum_incr_notin by done. lia.
  - rewrite counter_get_incr_ne by (intros ->; done). rewrite IH by done. lia.
Qed.

Lemma priority_keys_nodup : NoDup priority_keys.
Proof.
  by apply (bool_decide_unpack _); vm_compute.
Qed.

Lemma tally_keys_not_priority (k : string) :
  k ∈ priority_keys → k ≠ "related" ∧ k ≠ "no_relation".
Proof.
  unfold priority_keys. rewrite !elem_of_cons, elem_of_nil.
  intros H; split; intros ->; repeat destruct H as [H|H]; done.
Qed.

(** The loop never raises; each record adds one to [related] or to
    [no_relation], and one to a key of [priority_keys] exactly when it adds one
    to [related]. *)
Lemma analyze_loop_counts records counts matches :
  ∃ counts' matches',
    analyze_loop records counts matches = Ok (counts', matches') ∧
    tally counts' = tally counts + Z.of_nat (length records) ∧
    unlabelled counts' = unlabelled counts.
Proof.
  revert counts matches.
  induction records as [|rec records IH]; intros counts matches.
  { exists counts, matches. simpl. split_and!; [done | lia | done]. }
  cbn [analyze_loop length]. rewrite detect_relations_ok.
  cbn [mbind result_bind].
  pose proof (select_primary_spec (relation_flags rec) priority_keys counts) as Hsel.
  destruct (select_primary _ _ counts) as [[k|] counts1].
  - destruct Hsel as (before & after & Hkeys & _ & _ & ->).
    assert (k ∈ priority_keys) as Hin by (rewrite Hkeys; set_solver).
    destruct (tally_keys_not_priority k Hin) as [Hrel Hno].
    edestruct IH as (counts' & matches' & -> & Htally & Hunl).
    exists counts', matches'. split; [done|].
    rewrite Htally, Hunl. unfold tally, unlabelled.
    rewrite counter_get_incr_eq, !(counter_get_incr_ne "related") by done.
    rewrite !(counter_get_incr_ne k) by done.
    rewrite key_sum_incr_notin
      by (intros Hr; by destruct (tally_keys_not_priority _ Hr)).
    rewrite key_sum_incr_in by auto using priority_keys_nodup. lia.
  - destruct Hsel as [_ ->].
    edestruct IH as (counts' & matches' & -> & Htally & Hunl).
    exists counts', matches'. split; [done|].
    rewrite Htally, Hunl. unfold tally, unlabelled.
    rewrite counter_get_incr_eq, !(counter_get_incr_ne "no_relation") by done.
    rewrite key_sum_incr_notin
      by (intros Hr; by destruct (tally_keys_not_priority _ Hr)).
    lia.
Qed.

Lemma percentage_ok count total :
  percentage count total = Ok (percentage_value count total).
Proof.
  unfold percentage, percentage_value, py_truediv.
  by destruct (total =? 0).
Qed.

Lemma compute_summary_ok records :
  ∃ counts matches,
    analyze_loop records ∅ [] = Ok (counts, matches) ∧
    tally counts = Z.of_nat (length records) ∧
    unlabelled counts = 0 ∧
    compute_summary records =
    Ok {| total := Z.of_nat (length records);
          related := counter_get counts "related";
          no_relation := counter_get counts "no_relation";
          related_pct :=
            percentage_value (counter_get counts "related")
                             (Z.of_nat (length records));
          no_relation_pct :=
            percentage_value (counter_get counts "no_relation")
                             (Z.of_nat (length records));
          detail := (λ k, (k, counter_get counts k)) <$> priority_keys |}.
Proof.
  destruct (analyze_loop_counts records ∅ []) as (counts & matches & Hloop & Ht & Hu).
  exists counts, matches. split_and!; [done | by rewrite Ht | by rewrite Hu |].
  unfold compute_summary. rewrite Hloop. simpl.
  by rewrite !percentage_ok.
Qed.

(** *** Counts in closed form *)

Lemma count_records_nil test : count_records test [] = 0.
Proof. done. Qed.

Lemma count_records_cons test rec records :
  count_records test (rec :: records) =
  (if test (select_primary (relation_flags rec) priority_keys ∅).1 then 1 else 0)
  + count_records test records.
Proof.
  unfold count_records. cbn [List.filter]. rewrite primary_relation_ok.
  destruct (test _); cbn [length]; lia.
Qed.

Lemma count_records_app test a b :
  count_records test (a ++ b) = count_records test a + count_records test b.
Proof.
  unfold count_records. rewrite List.filter_app, length_app. lia.
Qed.

Lemma count_records_perm test a b :
  a ≡ₚ b → count_records test a = count_records test b.
Proof.
  intros Hp. induction Hp as [|rec a b Hp IH|x y a|a b c _ IH1 _ IH2].
  - done.
  - by rewrite !count_records_cons, IH.
  - rewrite !count_records_cons. lia.
  - by rewrite IH1.
Qed.

Lemma select_primary_counts (flags : gmap string PyVal) keys counts :
  select_primary flags keys counts =
  ((select_primary flags keys ∅).1,
   match (select_primary flags keys ∅).1 with
   | Some k => counter_incr k counts
   | None => counts
   end).
Proof.
  induction keys as [|k keys IH]; [done|]. cbn [select_primary].
  by destruct (truthy (flags !! k)).
Qed.

Lemma select_primary_in_keys (flags : gmap string PyVal) keys counts k :
  (select_primary flags keys counts).1 = Some k → k ∈ keys.
Proof.
  pose proof (select_primary_spec flags keys counts) as H.
  destruct (select_primary flags keys counts) as [[k'|] c]; [|done].
  destruct H as (before & after & -> & _). intros [= ->]. set_solver.
Qed.

Lemma counter_get_incr k x counts :
  counter_get (counter_incr k counts) x =
  counter_get counts x + (if bool_decide (k = x) then 1 else 0).
Proof.
  case_bool_decide as Hk.
  - subst. apply counter_get_incr_eq.
  - rewrite counter_get_incr_ne by done. lia.
Qed.

Lemma analyze_loop_tallies records counts matches :
  ∃ counts' matches',
    analyze_loop records counts matches = Ok (counts', matches') ∧
    counter_get counts' "no_relation" =
      counter_get counts "no_relation" + count_records is_none records ∧
    Forall (λ k, counter_get counts' k =
                 counter_get counts k + count_records (is_label k) records)
           priority_keys.
Proof.
  revert counts matches.
  induction records as [|rec records IH]; intros counts matches.
  { exists counts, matches. split; [done|]. split.
    - rewrite count_records_nil. lia.
    - apply Forall_forall. intros k _. rewrite count_records_nil. lia. }
  cbn [analyze_loop]. rewrite detect_relations_ok. cbn [mbind result_bind].
  rewrite select_primary_counts.
  pose proof (select_primary_in_keys (relation_flags rec) priority_keys ∅) as Hin.
  assert (∀ test, count_records test (rec :: records) =
            (if test (select_primary (relation_flags rec) priority_keys ∅).1
             then 1 else 0) + count_records test records) as Hcons
    by (intros; apply count_records_cons).
  destruct (select_primary (relation_flags rec) priority_keys ∅).1 as [k|].
  - specialize (Hin k eq_refl).
    destruct (tally_keys_not_priority k Hin) as [Hrel Hno].
    edestruct IH as (counts' & matches' & -> & Hnone & Hkeys).
    exists counts', matches'. split; [done|]. split.
    + rewrite Hnone, Hcons, !counter_get_incr.
      rewrite !bool_decide_eq_false_2 by done. cbn [is_none]. lia.
    + rewrite Forall_forall in *. intros x Hx. rewrite (Hkeys x Hx), Hcons.
      destruct (tally_keys_not_priority x Hx) as [Hxr _].
      rewrite !counter_get_incr. unfold is_label.
      rewrite (bool_decide_eq_false_2 ("related" = x)) by done.
      destruct (decide (k = x)) as [->|Hne].
      * rewrite !bool_decide_eq_true_2 by done. cbv iota. lia.
      * rewrite !bool_decide_eq_false_2 by congruence. cbv iota. lia.
  - edestruct IH as (counts' & matches' & -> & Hnone & Hkeys).
    exists counts', matches'. split; [done|]. split.
    + rewrite Hnone, Hcons, counter_get_incr.
      rewrite bool_decide_eq_true_2 by done. cbn [is_none]. lia.
    + rewrite Forall_forall in *. intros x Hx. rewrite (Hkeys x Hx), Hcons.
      destruct (tally_keys_not_priority x Hx) as [_ Hxn].
      rewrite counter_get_incr. unfold is_label.
      rewrite !bool_decide_eq_false_2 by done. cbv iota. lia.
Qed.

Lemma compute_summary_closed records :
  compute_summary records =
  Ok {| total := Z.of_nat (length records);
        related := Z.of_nat (length records) - count_records is_none records;
        no_relation := count_records is_none records;
        related_pct :=
          percentage_value
            (Z.of_nat (length records) - count_records is_none records)
            (Z.of_nat (length records));
        no_relation_pct :=
          percentage_value (count_records is_none records)
                           (Z.of_nat (length records));
        detail := (λ k, (k, count_records (is_label k) records)) <$> priority_keys |}.
Proof.
  destruct (compute_summary_ok records)
    as (counts & matches & Hloop & Htally & _ & ->).
  destruct (analyze_loop_tallies records ∅ [])
    as (counts' & matches' & Hloop' & Hnone & Hkeys).
  rewrite Hloop in Hloop'. injection Hloop' as <- <-.
  unfold tally in Htally.
  assert (counter_get (∅ : gmap string Z) "no_relation" = 0) as H0 by done.
  rewrite H0 in Hnone.
  assert (counter_get counts "related" =
          Z.of_nat (length records) - count_records is_none records) as Hrel by lia.
  rewrite Hrel, Hnone. do 2 f_equal.
  apply Forall_fmap_ext. rewrite Forall_forall in *. intros k Hk.
  by rewrite (Hkeys k Hk).
Qed.

Lemma count_records_related (records : list record) :
  Z.of_nat (length records) - count_records is_none records =
  count_records (λ primary, negb (is_none primary)) records.
Proof.
  unfold count_records. induction records as [|rec records IH]; [done|].
  cbn [List.filter length]. rewrite primary_relation_ok in *.
  destruct (is_none _); cbn [negb length]; lia.
Qed.

Lemma count_records_nonneg test records : 0 ≤ count_records test records.
Proof. unfold count_records. lia. Qed.

(** [analyze_relations] returns the values of [compute_summary] unless there
    is no record, when the chart raises. *)
Lemma analyze_relations_cases (records : list record) :
  analyze_relations records =
  match records with
  | [] => Raise ValueError
  | _ :: _ => compute_summary records
  end.
Proof.
  unfold analyze_relations. rewrite compute_summary_closed.
  cbn [mbind result_bind related no_relation]. unfold plt_pie.
  pose proof (count_records_nonneg is_none records) as Hnone.
  pose proof (count_records_nonneg (λ primary, negb (is_none primary)) records)
    as Hrel.
  rewrite <- count_records_related in Hrel.
  cbn [existsb foldr]. rewrite orb_false_r.
  rewrite (proj2 (Z.ltb_ge _ _) Hrel), (proj2 (Z.ltb_ge _ _) Hnone). cbn [orb].
  destruct records as [|rec records]; [done|].
  destruct (Z.eqb_spec
    (Z.of_nat (length (rec :: records)) - count_records is_none (rec :: records) +
     (count_records is_none (rec :: records) + 0)) 0) as [H0|_]; [|done].
  cbn [length] in H0. lia.
Qed.

Lemma analyze_relations_nonempty (records : list record) :
  records ≠ [] → analyze_relations records = compute_summary records.
Proof. rewrite analyze_relations_cases. by destruct records. Qed.

Lemma analyze_relations_returns (records : list record) (summary : Summary) :
  analyze_relations records = Ok summary →
  records ≠ [] ∧ compute_summary records = Ok summary.
Proof. rewrite analyze_relations_cases. by destruct records. Qed.

(** C4: the values of the summary have [related + no_relation] equal to the
    number of records, and the counts of the eight labels in [detail] add up
    to [related]; [analyze_relations] returns that summary for every record
    set but the empty one, where the chart raises and no summary is
    returned. *)
Theorem summary_counts_add_up (records : list record) :
  ∃ summary,
    compute_summary records = Ok summary ∧
    total summary = Z.of_nat (length records) ∧
    related summary + no_relation summary = total summary ∧
    (detail summary).*1 = priority_keys ∧
    py_sum (detail summary).*2 = related summary ∧
    analyze_relations records =
      match records with
      | [] => Raise ValueError
      | _ :: _ => Ok summary
      end.
Proof.
  rewrite analyze_relations_cases.
  destruct (compute_summary_ok records)
    as (counts & matches & _ & Htally & Hunl & ->).
  eexists. split; [done|]. cbn [total related no_relation detail].
  split_and!; [done | done | done | | by destruct records].
  unfold unlabelled, key_sum in Hunl. simpl in *. lia.
Qed.

(** C6: the percentages are computed from the records: [total] is their
    number, [related] and [no_relation] the numbers of records with and
    without a primary relation, and each percentage is [count / total * 100]
    in floating point when there is at least one record and the integer 0
    when there is none.  The division by [total], which raises at 0, is never
    reached with [total = 0]: [analyze_relations] never raises
    [ZeroDivisionError]; on the empty record set the percentages are 0, and
    what raises afterwards is the chart. *)
Theorem percentages_guard_zero_total :
  (∀ records : list record,
     ∃ summary,
       compute_summary records = Ok summary ∧
       total summary = Z.of_nat (length records) ∧
       related summary =
         count_records (λ primary, negb (is_none primary)) records ∧
       no_relation summary = count_records is_none records ∧
       related_pct summary =
         (if total summary =? 0 then PyInt 0
          else PyFloat (PrimFloat.mul
                          (PrimFloat.div (py_float (related summary))
                                         (py_float (total summary)))
                          (py_float 100))) ∧
       no_relation_pct summary =
         (if total summary =? 0 then PyInt 0
          else PyFloat (PrimFloat.mul
                          (PrimFloat.div (py_float (no_relation summary))
                                         (py_float (total summary)))
                          (py_float 100))) ∧
       analyze_relations records =
         match records with
         | [] => Raise ValueError
         | _ :: _ => Ok summary
         end ∧
       analyze_relations records ≠ Raise ZeroDivisionError) ∧
  compute_summary [] =
    Ok {| total := 0; related := 0; no_relation := 0;
          related_pct := PyInt 0; no_relation_pct := PyInt 0;
          detail := (λ k, (k, 0)) <$> priority_keys |} ∧
  (∀ count : Z, percentage count 0 = Ok (PyInt 0)) ∧
  (∀ count : Z, py_truediv count 0 = Raise ZeroDivisionError).
Proof.
  split_and!; [|done..].
  intros records. rewrite analyze_relations_cases, compute_summary_closed.
  eexists. split; [done|]. cbn [total related no_relation related_pct no_relation_pct].
  split_and!; [done | apply count_records_related | done | done | done | |];
    by destruct records.
Qed.

(** The three records of the specification's end-to-end example. *)
Example analyze_three_records :
  let mk u e p := {| username := Some u; email := Some e; password := Some p;
                     src := Some "www.csdn.net.sql" |} in
  let records := [mk "bob" "" "bob123"; mk "carol" "carol@x.com" "carol";
                  mk "dave" "" "xyz999"] in
  primary_relation <$> records =
    [Ok (Some "contains_username"); Ok (Some "exact_username"); Ok None] ∧
  ∃ summary,
    analyze_relations records = Ok summary ∧
    related summary = 2 ∧ no_relation summary = 1 ∧
    related_pct summary = PyFloat 0x1.0aaaaaaaaaaaap+6%float.
Proof.
  split; [by vm_compute|]. eexists. split; [by vm_compute|]. done.
Qed.

(** The loop records, for each input record in order, the record, the primary
    relation [primary_relation] gives it, and its flags. *)
Lemma analyze_loop_matches records counts matches :
  ∃ counts',
    analyze_loop records counts matches =
    Ok (counts', matches ++ (classified <$> records)).
Proof.
  revert counts matches.
  induction records as [|rec records IH]; intros counts matches.
  { exists counts. simpl. by rewrite app_nil_r. }
  cbn [analyze_loop]. rewrite detect_relations_ok. cbn [mbind result_bind].
  pose proof (select_primary_counts_irrelevant (relation_flags rec)
                priority_keys counts ∅) as Hsame.
  destruct (select_primary _ _ counts) as [primary counts1].
  edestruct IH as [counts' ->]. exists counts'.
  rewrite <- app_assoc. cbn [fst] in Hsame. by rewrite Hsame.
Qed.

(** * Further properties *)

(** ** Concatenation, prefixes and substrings *)

Lemma str_app_cons (c : ascii) (a b : string) :
  String c a +:+ b = String c (a +:+ b).
Proof. done. Qed.

Lemma str_app_nil_r (s : string) : s +:+ "" = s.
Proof. induction s as [|c s IH]; [done|]. by rewrite str_app_cons, IH. Qed.

Lemma str_app_assoc (a b c : string) : (a +:+ b) +:+ c = a +:+ (b +:+ c).
Proof. induction a as [|x a IH]; [done|]. by rewrite !str_app_cons, IH. Qed.

Lemma prefix_spec (t p : string) :
  String.prefix t p = true ↔ ∃ r, p = t +:+ r.
Proof.
  revert p; induction t as [|c t IH]; intros p.
  { split; [by exists p | by destruct p]. }
  destruct p as [|d p]; simpl.
  { split; [done | by intros [r ?]]. }
  destruct (ascii_dec c d) as [->|Hne].
  - rewrite IH. split; intros [r Hr]; exists r.
    + by rewrite Hr.
    + by injection Hr.
  - split; [done|]. intros [r Hr]. injection Hr as -> _. done.
Qed.

Lemma contains_unfold (t p : string) :
  PyStr.contains t p =
  String.prefix t p ||
  match p with EmptyString => false | String _ p' => PyStr.contains t p' end.
Proof. by destruct p. Qed.

Lemma contains_spec (t p : string) :
  PyStr.contains t p = true ↔ ∃ a r, p = a +:+ (t +:+ r).
Proof.
  induction p as [|d p IH]; rewrite contains_unfold, orb_true_iff, prefix_spec.
  - split.
    + intros [[r Hr]|?]; [|done]. by exists "", r.
    + intros (a & r & Hr). left. destruct a; [by exists r | done].
  - rewrite IH. split.
    + intros [[r Hr]|(a & r & Hr)]; [by exists "", r|].
      exists (String d a), r. by rewrite Hr.
    + intros (a & r & Hr). destruct a as [|x a].
      * left. by exists r.
      * right. exists a, r. by injection Hr.
Qed.

Lemma contains_trans (a b c : string) :
  PyStr.contains a b = true → PyStr.contains b c = true →
  PyStr.contains a c = true.
Proof.
  rewrite !contains_spec. intros (x & y & ->) (x' & y' & ->).
  exists (x' +:+ x), (y +:+ y'). by rewrite !str_app_assoc.
Qed.

Lemma rev_app_spec (s acc : string) :
  String.rev_app s acc = String.rev s +:+ acc.
Proof.
  unfold String.rev. revert acc; induction s as [|c s IH]; intros acc; [done|].
  simpl. rewrite IH, (IH (String c "")). by rewrite str_app_assoc.
Qed.

Lemma rev_cons (c : ascii) (s : string) :
  String.rev (String c s) = String.rev s +:+ String c "".
Proof. unfold String.rev at 1. simpl. apply rev_app_spec. Qed.

Lemma rev_app_distr (a b : string) :
  String.rev (a +:+ b) = String.rev b +:+ String.rev a.
Proof.
  induction a as [|c a IH]; [by rewrite str_app_nil_r|].
  by rewrite str_app_cons, !rev_cons, IH, str_app_assoc.
Qed.

Lemma rev_involutive (s : string) : String.rev (String.rev s) = s.
Proof.
  induction s as [|c s IH]; [done|].
  by rewrite rev_cons, rev_app_distr, IH.
Qed.

Lemma endswith_spec (p t : string) :
  PyStr.endswith p t = true ↔ ∃ a, p = a +:+ t.
Proof.
  unfold PyStr.endswith, PyStr.reverse. rewrite prefix_spec. split.
  - intros [r Hr]. exists (String.rev r).
    by rewrite <- (rev_involutive p), Hr, rev_app_distr, rev_involutive.
  - intros [a ->]. exists (String.rev a). apply rev_app_distr.
Qed.

(** ** Maps and filters over concatenations *)

Lemma map_app (f : ascii → ascii) (a b : string) :
  PyStr.map f (a +:+ b) = PyStr.map f a +:+ PyStr.map f b.
Proof. induction a as [|c a IH]; [done|]. by rewrite str_app_cons; simpl; rewrite IH. Qed.

Lemma filter_app (q : ascii → bool) (a b : string) :
  PyStr.filter q (a +:+ b) = PyStr.filter q a +:+ PyStr.filter q b.
Proof.
  induction a as [|c a IH]; [done|]. rewrite str_app_cons; simpl.
  destruct (q c); by rewrite IH.
Qed.

Lemma all_app (q : ascii → bool) (a b : string) :
  PyStr.all q (a +:+ b) = PyStr.all q a && PyStr.all q b.
Proof.
  induction a as [|c a IH]; [done|]. rewrite str_app_cons; simpl.
  by rewrite IH, andb_assoc.
Qed.

Lemma length_map (f : ascii → ascii) (s : string) :
  String.length (PyStr.map f s) = String.length s.
Proof. induction s as [|c s IH]; [done|]. simpl. by rewrite IH. Qed.

Lemma length_filter (q : ascii → bool) (s : string) :
  (String.length (PyStr.filter q s) ≤ String.length s)%nat.
Proof. induction s as [|c s IH]; [done|]. simpl. destruct (q c); simpl; lia. Qed.

Lemma contains_map (f : ascii → ascii) (t p : string) :
  PyStr.contains t p = true → PyStr.contains (PyStr.map f t) (PyStr.map f p) = true.
Proof.
  rewrite !contains_spec. intros (a & r & ->).
  exists (PyStr.map f a), (PyStr.map f r). by rewrite !map_app.
Qed.

Lemma contains_all (q : ascii → bool) (t p : string) :
  PyStr.contains t p = true → PyStr.all q p = true → PyStr.all q t = true.
Proof.
  rewrite contains_spec. intros (a & r & ->). rewrite !all_app.
  by intros [_ [? _]%andb_prop]%andb_prop.
Qed.

(** ** Normalizer *)

(** X1: the normal form consists of characters of [a-z0-9], is no longer than
    the input, and is not empty when the input has a character of
    [A-Za-z0-9]. *)
Theorem normalize_alnum_alphabet (s : string) :
  PyStr.all PyStr.is_lower_alnum (normalize_alnum (Some s)) = true ∧
  (String.length (normalize_alnum (Some s)) ≤ String.length s)%nat ∧
  no_alnum s || PyStr.nonempty (normalize_alnum (Some s)) = true.
Proof.
  split_and!.
  - apply normalize_alnum_all.
  - unfold normalize_alnum. etrans; [apply length_filter|].
    unfold PyStr.lower. by rewrite length_map.
  - destruct (no_alnum s) eqn:Hs; [done|].
    destruct (normalize_alnum (Some s)) eqn:Hn; [|done].
    apply normalize_empty_iff in Hn. congruence.
Qed.

(** X2: normalizing a concatenation is concatenating the normal forms. *)
Theorem normalize_alnum_app (a b : string) :
  normalize_alnum (Some (a +:+ b)) =
  normalize_alnum (Some a) +:+ normalize_alnum (Some b).
Proof.
  unfold normalize_alnum, PyStr.lower.
  rewrite map_app. apply filter_app.
Qed.

(** ** Tokenizer *)

Lemma space_not_alnum (c : ascii) :
  PyStr.is_space c = true → PyStr.is_alnum c = false.
Proof. each_char c; vm_compute; congruence. Qed.

Lemma filter_lstrip (q : ascii → bool) (s : string) :
  (∀ c, PyStr.is_space c = true → q c = false) →
  PyStr.filter q (PyStr.lstrip s) = PyStr.filter q s.
Proof.
  intros Hq. induction s as [|c s IH]; [done|]. simpl.
  destruct (PyStr.is_space c) eqn:Hc; [|done]. by rewrite (Hq c Hc).
Qed.

Lemma filter_rstrip (q : ascii → bool) (s : string) :
  (∀ c, PyStr.is_space c = true → q c = false) →
  PyStr.filter q (PyStr.rstrip s) = PyStr.filter q s.
Proof.
  intros Hq. induction s as [|c s IH]; [done|]. simpl.
  destruct (PyStr.rstrip s) as [|d r] eqn:Hr.
  - rewrite <- IH. destruct (PyStr.is_space c) eqn:Hc; [|done].
    by rewrite (Hq c Hc).
  - change (PyStr.filter q (String c (String d r)))
      with (if q c then String c (PyStr.filter q (String d r))
            else PyStr.filter q (String d r)).
    by rewrite IH.
Qed.

Lemma filter_strip_alnum (s : string) :
  PyStr.filter PyStr.is_alnum (PyStr.strip s) = PyStr.filter PyStr.is_alnum s.
Proof.
  unfold PyStr.strip.
  by rewrite filter_rstrip, filter_lstrip by apply space_not_alnum.
Qed.

Lemma re_split_go_cons (b : bool) (s : string) :
  ∃ p ps, PyStr.re_split_go b s = p :: ps.
Proof.
  revert b; induction s as [|c s IH]; intros b; simpl; [by eauto|].
  destruct (PyStr.is_alnum c).
  - destruct (IH false) as (p & ps & ->). eauto.
  - destruct b; [apply IH | eauto].
Qed.

Lemma re_split_go_concat (b : bool) (s : string) :
  str_concat (PyStr.re_split_go b s) = PyStr.filter PyStr.is_alnum s.
Proof.
  revert b; induction s as [|c s IH]; intros b; simpl; [done|].
  destruct (PyStr.is_alnum c).
  - specialize (IH false).
    destruct (re_split_go_cons false s) as (p & ps & Hp). rewrite Hp in *.
    unfold str_concat in *. simpl in *. by rewrite str_app_cons, IH.
  - destruct b; [apply IH|]. unfold str_concat in *. simpl. apply IH.
Qed.

Lemma re_split_go_alnum (b : bool) (s : string) :
  Forall (λ piece, PyStr.all PyStr.is_alnum piece = true) (PyStr.re_split_go b s).
Proof.
  revert b; induction s as [|c s IH]; intros b; simpl.
  { by repeat constructor. }
  destruct (PyStr.is_alnum c) eqn:Hc.
  - specialize (IH false).
    destruct (PyStr.re_split_go false s) as [|p ps]; [by repeat constructor; simpl; rewrite Hc|].
    inversion_clear IH. constructor; [|done]. simpl. by rewrite Hc.
  - destruct b; [apply IH|]. constructor; [done | apply IH].
Qed.

Lemma contains_concat (piece : string) (pieces : list string) :
  piece ∈ pieces → PyStr.contains piece (str_concat pieces) = true.
Proof.
  intros Hin. apply contains_spec.
  induction Hin as [piece pieces|piece q pieces Hin (a & r & IH)].
  - by exists "", (str_concat pieces).
  - exists (q +:+ a), r. unfold str_concat in *. simpl.
    by rewrite IH, str_app_assoc.
Qed.

Lemma all_lower_alnum (s : string) :
  PyStr.all PyStr.is_alnum s = true →
  PyStr.all PyStr.is_lower_alnum (PyStr.lower s) = true.
Proof.
  induction s as [|c s IH]; [done|]. unfold PyStr.lower in *; simpl.
  rewrite lower_alnum_of_lower_char. intros [-> ?]%andb_prop. auto.
Qed.

Lemma tokenize_name_token (s : option string) (t : string) :
  t ∈ tokenize_name s →
  (3 ≤ String.length t)%nat ∧
  PyStr.all PyStr.is_lower_alnum t = true ∧
  PyStr.contains t (normalize_alnum s) = true.
Proof.
  destruct s as [s|]; [|by intros ?%elem_of_nil]. unfold tokenize_name.
  destruct (negb (PyStr.nonempty s)); [by intros ?%elem_of_nil|]. cbv zeta.
  intros (piece & -> & Hin)%list_elem_of_fmap.
  apply list_elem_of_In, filter_In in Hin as [Hin%list_elem_of_In Hlen].
  apply Nat.leb_le in Hlen.
  pose proof (re_split_go_alnum false (PyStr.strip s)) as Hal.
  rewrite Forall_forall in Hal. specialize (Hal piece Hin).
  split_and!.
  - unfold PyStr.lower. by rewrite length_map.
  - by apply all_lower_alnum.
  - unfold normalize_alnum. rewrite filter_lower_alnum_lower.
    apply contains_map. rewrite <- filter_strip_alnum.
    rewrite <- (re_split_go_concat false). by apply contains_concat.
Qed.

(** X3: every token has at least three characters, all of [a-z0-9], and
    occurs in the normal form of the string it comes from. *)
Theorem tokenize_name_tokens (s : option string) :
  Forall (λ t, (3 ≤ String.length t)%nat ∧
               PyStr.all PyStr.is_lower_alnum t = true ∧
               PyStr.contains t (normalize_alnum s) = true)
         (tokenize_name s).
Proof.
  apply Forall_forall. intros t Ht.
  destruct (tokenize_name_token s t Ht) as (Hlen & Hall & Hin).
  by split_and!.
Qed.

(** ** Relations between the flags *)

Lemma prefix_contains (t p : string) :
  String.prefix t p = true → PyStr.contains t p = true.
Proof. intros H. by rewrite contains_unfold, H. Qed.

Lemma endswith_contains (p t : string) :
  PyStr.endswith p t = true → PyStr.contains t p = true.
Proof.
  rewrite endswith_spec, contains_spec. intros [a ->].
  exists a, "". by rewrite str_app_nil_r.
Qed.

Lemma endswith_refl (s : string) : PyStr.endswith s s = true.
Proof. apply endswith_spec. by exists "". Qed.

(** X4: [startswith_username] and [endswith_username] each imply
    [contains_username], and [exact_username] implies both of them. *)
Theorem username_position_flags (rec : record) (flags : gmap string PyVal) :
  detect_relations rec = Ok flags →
  (flags !! "startswith_username" = Some (VBool true) →
   flags !! "contains_username" = Some (VBool true)) ∧
  (flags !! "endswith_username" = Some (VBool true) →
   flags !! "contains_username" = Some (VBool true)) ∧
  (flags !! "exact_username" = Some (VBool true) →
   flags !! "startswith_username" = Some (VBool true) ∧
   flags !! "endswith_username" = Some (VBool true)).
Proof.
  rewrite detect_relations_ok. intros [= <-].
  rewrite lookup_startswith_username, lookup_endswith_username,
    lookup_contains_username, lookup_exact_username.
  split_and!.
  - intros [= [-> H]%andb_prop]. by rewrite prefix_contains.
  - intros [= [-> H]%andb_prop]. by rewrite endswith_contains.
  - intros [= [-> ->%bool_decide_eq_true]%andb_prop].
    unfold PyStr.startswith. by rewrite prefix_refl, endswith_refl.
Qed.

Lemma username_position_flags_witness :
  let rec := {| username := Some "Bob"; email := Some "";
                password := Some "x-bob"; src := Some "plaintxt_yahoo.txt" |} in
  relation_flags rec !! "endswith_username" = Some (VBool true) ∧
  relation_flags rec !! "contains_username" = Some (VBool true).
Proof.
  intros rec.
  assert (relation_flags rec !! "endswith_username" = Some (VBool true)) as He
    by (vm_compute; reflexivity).
  destruct (username_position_flags rec (relation_flags rec)
              (detect_relations_ok rec)) as (_ & Hc & _).
  exact (conj He (Hc He)).
Defined.

Lemma existsb_filter_truthy (f : string → bool) (l : list string) :
  truthy (Some (VBool (existsb f l))) = truthy (Some (VList (List.filter f l))).
Proof.
  induction l as [|t l IH]; [done|]. simpl in *.
  destruct (f t); [done | apply IH].
Qed.

Lemma filter_tokens_contains (hay : string) (tokens : list string) :
  Forall (λ t, (3 ≤ String.length t)%nat) tokens →
  List.filter (token_hit hay) tokens =
  List.filter (λ t, PyStr.contains t hay) tokens.
Proof.
  induction 1 as [|t tokens Hlen _ IH]; [done|]. cbn [List.filter].
  unfold token_hit at 1. rewrite IH.
  destruct t; [cbn in Hlen; lia | done].
Qed.

Lemma tokens_of_long (rec : record) :
  Forall (λ t, (3 ≤ String.length t)%nat) (tokens_of rec).
Proof.
  unfold tokens_of. apply Forall_app. split; apply Forall_forall; intros t Ht;
    by destruct (tokenize_name_token _ t Ht).
Qed.

(** X5: [matched_tokens] is exactly the list, in order and with repeats, of
    the tokens of the username and of the local part that occur in the
    normalized password, and [contains_token] is true exactly when that list
    is not empty.  The same holds for [matched_deleet_tokens] and
    [deleet_contains_token] on the de-obfuscated password. *)
Theorem matched_tokens_consistent (rec : record) :
  ∃ flags,
    detect_relations rec = Ok flags ∧
    flags !! "matched_tokens" =
      Some (VList (List.filter (λ t, PyStr.contains t (p_norm rec))
                               (tokens_of rec))) ∧
    flags !! "matched_deleet_tokens" =
      Some (VList (List.filter (λ t, PyStr.contains t (p_deleet rec))
                               (tokens_of rec))) ∧
    truthy (flags !! "contains_token") = truthy (flags !! "matched_tokens") ∧
    truthy (flags !! "deleet_contains_token") =
      truthy (flags !! "matched_deleet_tokens").
Proof.
  eexists. split; [apply detect_relations_ok|].
  rewrite lookup_matched_tokens, lookup_matched_deleet_tokens,
    lookup_contains_token, lookup_deleet_contains_token.
  rewrite <- !filter_tokens_contains by apply tokens_of_long.
  split_and!; [done | done | apply existsb_filter_truthy
              | apply existsb_filter_truthy].
Qed.

(** X6: the dict [detect_relations] returns always holds the same twelve
    keys. *)
Theorem detect_relations_keys (rec : record) :
  ∃ flags,
    detect_relations rec = Ok flags ∧
    dom flags =
      list_to_set
        ["exact_username"; "exact_email"; "contains_username";
         "startswith_username"; "endswith_username"; "contains_localpart";
         "contains_token"; "matched_tokens"; "reversed_username";
         "deleet_contains_username"; "deleet_contains_token";
         "matched_deleet_tokens"].
Proof.
  exists (relation_flags rec). split; [apply detect_relations_ok|].
  unfold relation_flags. cbv zeta. rewrite !dom_insert_L, dom_empty_L.
  simpl. set_solver.
Qed.

Lemma tokenize_name_or_empty (x : option string) :
  tokenize_name (Some (py_or_empty x)) = tokenize_name x.
Proof. by destruct x as [[|c s]|]. Qed.

Lemma token_hit_of_contains (u hay t : string) :
  (3 ≤ String.length t)%nat →
  PyStr.contains t u = true → PyStr.contains u hay = true →
  token_hit hay t = true.
Proof.
  intros Hlen Htu Hup. unfold token_hit.
  rewrite (contains_trans _ _ _ Htu Hup).
  destruct t; [simpl in Hlen; lia | done].
Qed.

(** X7: when the username gives at least one token, [contains_username]
    implies [contains_token], and [deleet_contains_username] implies
    [deleet_contains_token]. *)
Theorem contains_username_gives_token (rec : record) (flags : gmap string PyVal) :
  detect_relations rec = Ok flags →
  tokenize_name (username rec) ≠ [] →
  (flags !! "contains_username" = Some (VBool true) →
   flags !! "contains_token" = Some (VBool true)) ∧
  (flags !! "deleet_contains_username" = Some (VBool true) →
   flags !! "deleet_contains_token" = Some (VBool true)).
Proof.
  rewrite detect_relations_ok. intros [= <-] Htok.
  rewrite lookup_contains_username, lookup_contains_token,
    lookup_deleet_contains_username, lookup_deleet_contains_token.
  pose proof (tokenize_name_token (Some (uname_of rec))) as Hall.
  unfold tokens_of. unfold uname_of in *.
  rewrite tokenize_name_or_empty in *.
  destruct (tokenize_name (username rec)) as [|t ts]; [done|].
  destruct (Hall t) as (Hlen & _ & Hin); [by left|].
  fold (uname_of rec) in Hin. fold (u_norm rec) in Hin.
  split; intros [= [_ Hc]%andb_prop]; do 2 f_equal; simpl;
    by rewrite (token_hit_of_contains (u_norm rec)).
Qed.

Lemma contains_username_gives_token_witness :
  let rec := {| username := Some "j.doe"; email := Some "";
                password := Some "JD03-2024"; src := Some "www.csdn.net.sql" |} in
  relation_flags rec !! "deleet_contains_username" = Some (VBool true) ∧
  relation_flags rec !! "deleet_contains_token" = Some (VBool true).
Proof.
  intros rec.
  assert (relation_flags rec !! "deleet_contains_username" = Some (VBool true))
    as Hu by (vm_compute; reflexivity).
  assert (tokenize_name (username rec) ≠ []) as Htok by (vm_compute; discriminate).
  destruct (contains_username_gives_token rec (relation_flags rec)
              (detect_relations_ok rec) Htok) as [_ Hd].
  exact (conj Hu (Hd Hu)).
Defined.

(** ** De-obfuscator *)

Lemma deleet_char_letter_or_8 (c : ascii) :
  PyStr.is_lower_alnum (PyStr.lower_char (PyStr.lower_char (deleet_char c))) = true →
  letter_or_8 (PyStr.lower_char (PyStr.lower_char (deleet_char c))) = true.
Proof. each_char c; vm_compute; congruence. Qed.

Lemma p_deleet_letter_or_8 (s : string) :
  PyStr.all letter_or_8 (normalize_alnum (Some (deleet (Some s)))) = true.
Proof.
  rewrite deleet_nonempty. unfold normalize_alnum, PyStr.lower.
  induction s as [|c s IH]; [done|]. cbn [PyStr.map PyStr.filter].
  destruct (PyStr.is_lower_alnum _) eqn:Hc; [|done]. cbn [PyStr.all].
  by rewrite deleet_char_letter_or_8, IH.
Qed.

Lemma deleet_char_no_digit (c : ascii) :
  no_digit_but_8 (PyStr.lower_char (deleet_char c)) = true.
Proof. each_char c; vm_compute; reflexivity. Qed.

(** X8: [deleet] rewrites every digit but 8 into a letter: its result holds
    no digit of [0-9] other than 8, and the de-obfuscated and normalized
    password holds only lower-case letters and the digit 8. *)
Theorem deleet_shape (s : string) :
  PyStr.all no_digit_but_8 (deleet (Some s)) = true ∧
  PyStr.all letter_or_8 (normalize_alnum (Some (deleet (Some s)))) = true.
Proof.
  rewrite deleet_nonempty. unfold normalize_alnum, PyStr.lower.
  induction s as [|c s [IH1 IH2]]; [done|].
  cbn [PyStr.map PyStr.filter PyStr.all].
  rewrite deleet_char_no_digit, IH1. split; [done|].
  destruct (PyStr.is_lower_alnum _) eqn:Hc; [|done]. cbn [PyStr.all].
  by rewrite deleet_char_letter_or_8, IH2.
Qed.

(** X9: a username whose normal form holds a digit other than 8 never gets
    [deleet_contains_username]: the de-obfuscated password has no such
    digit left. *)
Theorem deleet_never_matches_digits (rec : record) (flags : gmap string PyVal) :
  detect_relations rec = Ok flags →
  PyStr.all letter_or_8 (normalize_alnum (username rec)) = false →
  flags !! "deleet_contains_username" = Some (VBool false).
Proof.
  rewrite detect_relations_ok. intros [= <-] Hdigit.
  rewrite lookup_deleet_contains_username. do 2 f_equal.
  apply andb_false_iff. right.
  destruct (PyStr.contains _ _) eqn:Hc; [|done].
  apply (contains_all letter_or_8) in Hc; [|apply p_deleet_letter_or_8].
  unfold u_norm, uname_of in Hc. rewrite normalize_alnum_or_empty in Hc.
  congruence.
Qed.

Lemma deleet_never_matches_digits_witness :
  let rec := {| username := Some "bob1"; email := Some "";
                password := Some "b0b1"; src := Some "plaintxt_yahoo.txt" |} in
  relation_flags rec !! "deleet_contains_username" = Some (VBool false).
Proof.
  intros rec.
  apply (deleet_never_matches_digits rec (relation_flags rec)
           (detect_relations_ok rec)).
  vm_compute. reflexivity.
Defined.

(** ** Counts in closed form *)


Lemma compute_summary_perm (records1 records2 : list record) :
  records1 ≡ₚ records2 → compute_summary records1 = compute_summary records2.
Proof.
  intros Hp. rewrite !compute_summary_closed.
  rewrite (Permutation_length Hp), (count_records_perm is_none _ _ Hp).
  do 2 f_equal. apply Forall_fmap_ext, Forall_forall. intros k _.
  by rewrite (count_records_perm _ _ _ Hp).
Qed.

(** X11: the summary does not depend on the order of the records. *)
Theorem analyze_relations_permutation (records1 records2 : list record) :
  records1 ≡ₚ records2 →
  analyze_relations records1 = analyze_relations records2.
Proof.
  intros Hp. rewrite !analyze_relations_cases.
  destruct records1 as [|rec1 records1], records2 as [|rec2 records2].
  - done.
  - by apply Permutation_nil_cons in Hp.
  - symmetry in Hp. by apply Permutation_nil_cons in Hp.
  - by apply compute_summary_perm.
Qed.

Lemma analyze_relations_permutation_witness :
  let bob := {| username := Some "bob"; email := Some "";
                password := Some "bob123"; src := Some "plaintxt_yahoo.txt" |} in
  let dave := {| username := Some "dave"; email := Some "dave@x.com";
                 password := Some "xyz999"; src := Some "www.csdn.net.sql" |} in
  analyze_relations [bob; dave] = analyze_relations [dave; bob].
Proof.
  intros bob dave. apply analyze_relations_permutation. apply Permutation_swap.
Defined.

(** X12: when the analyses of two record lists each return a summary, so
    does the analysis of the two lists together, as [main] runs it on the
    records of its two files, and its counts are the sums of theirs. *)
Theorem analyze_relations_app (records1 records2 : list record) (s1 s2 : Summary) :
  analyze_relations records1 = Ok s1 →
  analyze_relations records2 = Ok s2 →
  ∃ s,
    analyze_relations (records1 ++ records2) = Ok s ∧
    total s = total s1 + total s2 ∧
    related s = related s1 + related s2 ∧
    no_relation s = no_relation s1 + no_relation s2 ∧
    (detail s).*2 = zip_with Z.add (detail s1).*2 (detail s2).*2.
Proof.
  intros [Hne1 H1]%analyze_relations_returns [Hne2 H2]%analyze_relations_returns.
  rewrite analyze_relations_nonempty by (by destruct records1).
  rewrite compute_summary_closed in H1, H2 |- *.
  injection H1 as <-. injection H2 as <-. eexists. split; [done|].
  cbn [total related no_relation detail]. split_and!.
  - rewrite length_app. lia.
  - rewrite length_app, count_records_app. lia.
  - apply count_records_app.
  - rewrite <- !list_fmap_compose. unfold priority_keys.
    cbn [fmap list_fmap compose snd zip_with].
    by rewrite !count_records_app.
Qed.

Lemma analyze_relations_app_witness :
  let bob := {| username := Some "bob"; email := Some "";
                password := Some "bob123"; src := Some "plaintxt_yahoo.txt" |} in
  let dave := {| username := Some "dave"; email := Some "dave@x.com";
                 password := Some "xyz999"; src := Some "www.csdn.net.sql" |} in
  ∃ s1 s2 s,
    analyze_relations [bob] = Ok s1 ∧ analyze_relations [dave] = Ok s2 ∧
    analyze_relations [bob; dave] = Ok s ∧
    related s = related s1 + related s2.
Proof.
  intros bob dave.
  destruct (compute_summary_ok [bob]) as (c1 & m1 & _ & _ & _ & H1).
  destruct (compute_summary_ok [dave]) as (c2 & m2 & _ & _ & _ & H2).
  rewrite <- (analyze_relations_cases [bob]) in H1.
  rewrite <- (analyze_relations_cases [dave]) in H2.
  destruct (analyze_relations_app [bob] [dave] _ _ H1 H2) as (s & Hs & _ & Hrel & _).
  eexists _, _, s. exact (conj H1 (conj H2 (conj Hs Hrel))).
Defined.

(** ** Examples and CSV rows *)

Lemma record_eta (rec : record) :
  {| username := username rec; email := email rec;
     password := password rec; src := src rec |} = rec.
Proof. by destruct rec. Qed.

Lemma examples_get_insert_eq examples key l :
  examples_get (<[key := l]> examples) key = l.
Proof. unfold examples_get. by rewrite lookup_insert_eq. Qed.

Lemma examples_get_insert_ne examples key key' l :
  key' ≠ key → examples_get (<[key' := l]> examples) key = examples_get examples key.
Proof. intros. unfold examples_get. by rewrite lookup_insert_ne. Qed.

Lemma examples_loop_get matches examples key :
  (length (examples_get examples key) ≤ 10)%nat →
  examples_get (examples_loop matches examples) key =
  take 10 (examples_get examples key ++ records_labelled key matches).
Proof.
  unfold examples_loop, records_labelled.
  revert examples; induction matches as [|m matches IH]; intros examples Hlen.
  { cbn. by rewrite app_nil_r, take_ge. }
  cbn [foldl List.filter]. rewrite record_eta.
  destruct (decide (label_of m.1.2 = key)) as [Hkey|Hkey].
  - rewrite (bool_decide_eq_true_2 _ Hkey), Hkey. cbn [fmap list_fmap].
    destruct (Nat.ltb_spec (length (examples_get examples key)) 10) as [Hlt|Hge].
    + rewrite IH; rewrite examples_get_insert_eq.
      * by rewrite <- app_assoc.
      * rewrite length_app. cbn [length]. lia.
    + rewrite IH by done. by rewrite !take_app_le by lia.
  - rewrite (bool_decide_eq_false_2 _ Hkey).
    destruct (_ <? _)%nat; [|by apply IH].
    rewrite IH; by rewrite examples_get_insert_ne.
Qed.

(** X13: for every label, the examples kept are the first ten records filed
    under it, in input order; so no list of examples is longer than ten. *)
Theorem examples_first_ten
    (matches : list (record * option string * gmap string PyVal)) (key : string) :
  examples_get (examples_loop matches ∅) key =
    take 10 (records_labelled key matches) ∧
  (length (examples_get (examples_loop matches ∅) key) ≤ 10)%nat.
Proof.
  assert (examples_get ∅ key = []) as Hempty
    by (unfold examples_get; by rewrite lookup_empty).
  rewrite examples_loop_get by (rewrite Hempty; cbn; lia).
  rewrite Hempty. cbn [app].
  split; [done|]. rewrite length_take. apply Nat.le_min_l.
Qed.

Lemma analyze_loop_classified records :
  ∃ counts, analyze_loop records ∅ [] = Ok (counts, classified <$> records).
Proof. destruct (analyze_loop_matches records ∅ []) as [counts H]. by exists counts. Qed.

Lemma priority_keys_in_true_flags (flags : gmap string PyVal) (k : string) :
  k ∈ priority_keys → truthy (flags !! k) = true → k ∈ true_flags flags.
Proof.
  intros Hin Hk. apply list_elem_of_In, filter_In. rewrite Hk. split.
  - revert Hin. unfold priority_keys. rewrite !elem_of_cons, elem_of_nil.
    intros H. repeat destruct H as [->|H]; try done; simpl; auto 20.
  - revert Hin. unfold priority_keys. rewrite !elem_of_cons, elem_of_nil.
    intros H. repeat destruct H as [->|H]; done.
Qed.

(** X14: the rows handed to the CSV writer are the header and then exactly
    as many rows as the counter [related] holds, each of eight fields, and
    the primary relation of every related record is one of the flags listed
    in its row; [related] of a summary that is returned is that counter. *)
Theorem csv_rows_related (records : list record) :
  ∃ counts matches,
    analyze_loop records ∅ [] = Ok (counts, matches) ∧
    Z.of_nat (length (csv_rows matches)) = 1 + counter_get counts "related" ∧
    Forall (λ row, length row = 8%nat) (csv_rows matches) ∧
    Forall (λ m, match m.1.2 with
                 | Some primary => primary ∈ true_flags m.2
                 | None => True
                 end) matches ∧
    match analyze_relations records with
    | Ok summary => related summary = counter_get counts "related"
    | Raise e => records = [] ∧ e = ValueError
    end.
Proof.
  destruct (analyze_loop_classified records) as [counts Hloop].
  destruct (compute_summary_ok records) as (counts' & matches' & Hloop' & _ & _ & Hsum).
  rewrite Hloop in Hloop'. injection Hloop' as <- <-.
  exists counts, (classified <$> records).
  split_and!; [done | | | |].
  - pose proof Hsum as Hclosed. rewrite compute_summary_closed in Hclosed.
    injection Hclosed as Hrel _. rewrite <- Hrel, count_records_related.
    unfold csv_rows, count_records. cbn [length].
    rewrite Nat2Z.inj_succ. unfold Z.succ. rewrite Z.add_comm. do 2 f_equal.
    clear. induction records as [|rec records IH]; [done|].
    rewrite fmap_cons. cbn [omap list_omap List.filter].
    rewrite primary_relation_ok.
    unfold classified at 1. cbn [fst snd].
    destruct (select_primary (relation_flags rec) priority_keys ∅).1;
      cbn [is_none negb length]; [f_equal|]; exact IH.
  - unfold csv_rows. constructor; [done|].
    clear. induction records as [|rec records IH]; [constructor|].
    rewrite fmap_cons. cbn [omap list_omap].
    destruct (classified rec).1.2; [constructor|]; done.
  - apply Forall_fmap, Forall_forall. intros rec _. unfold classified, compose. cbn [fst snd].
    pose proof (select_primary_spec (relation_flags rec) priority_keys ∅) as Hsp.
    destruct (select_primary _ _ _) as [[k|] c]; [|done]. cbn [fst].
    destruct Hsp as (before & after & Hkeys & _ & Hk & _).
    apply priority_keys_in_true_flags; [|done]. rewrite Hkeys. set_solver.
  - rewrite analyze_relations_cases. destruct records; [done|]. by rewrite Hsum.
Qed.

(** ** Parsing the dump lines *)

Example strip_quotes_ex :
  strip_quotes (Some "  'ab c' ") = Some "ab c" ∧
  strip_quotes (Some (String dquote "")) = Some "" ∧
  strip_quotes (Some "") = Some "" ∧ strip_quotes None = None.
Proof. by vm_compute. Qed.

Example extract_ex :
  extract_yahoo_fields "1:bob@x.com:pw:hash" =
    (Some "bob@x.com", Some "bob@x.com", Some "hash") ∧
  extract_yahoo_fields "a:b" = (None, None, None) ∧
  extract_csdn_fields "zdg # 12344321 # zdg@csdn.net" =
    Ok (Some "zdg", Some "zdg@csdn.net", Some "12344321").
Proof. by vm_compute. Qed.

Example parse_lines_ex :
  parse_lines "f.txt"
    ["zdg # 12344321 # zdg@csdn.net" +:+ String "010" "";
     "   " +:+ String "010" "";
     "1:bob@x.com:pw:hash";
     "a:b";
     "carol@x.com  secret";
     "dave pw3 extra";
     "onlypassword"] [] =
  [ {| username := Some "zdg"; email := Some "zdg@csdn.net";
       password := Some "12344321"; src := Some "f.txt" |};
    {| username := Some "bob@x.com"; email := Some "bob@x.com";
       password := Some "hash"; src := Some "f.txt" |};
    {| username := Some ""; email := Some ""; password := Some "";
       src := Some "f.txt" |};
    {| username := Some "carol"; email := Some "carol@x.com";
       password := Some "secret"; src := Some "f.txt" |};
    {| username := Some "dave"; email := Some ""; password := Some "pw3";
       src := Some "f.txt" |};
    {| username := Some ""; email := Some ""; password := Some "onlypassword";
       src := Some "f.txt" |} ].
Proof. by vm_compute. Qed.

(** *** Stripping *)

Lemma rstrip_unfold (c : ascii) (s : string) :
  PyStr.rstrip (String c s) =
  match PyStr.rstrip s with
  | EmptyString => if PyStr.is_space c then EmptyString else String c EmptyString
  | r => String c r
  end.
Proof. done. Qed.

Lemma rstrip_snoc_keep (a : string) (q : ascii) :
  PyStr.is_space q = false →
  PyStr.rstrip (a +:+ String q "") = a +:+ String q "".
Proof.
  intros Hq. induction a as [|c a IH].
  - change (PyStr.rstrip (String q "") = String q ""). cbn. by rewrite Hq.
  - rewrite str_app_cons, rstrip_unfold, IH.
    by destruct a.
Qed.

Lemma lstrip_keep (q : ascii) (s : string) :
  PyStr.is_space q = false → PyStr.lstrip (String q s) = String q s.
Proof. intros Hq. cbn. by rewrite Hq. Qed.

Lemma drop_last_snoc (a : string) (q : ascii) :
  drop_last (a +:+ String q "") = a.
Proof.
  induction a as [|c a IH]; [done|].
  rewrite str_app_cons. cbn [drop_last]. rewrite IH.
  by destruct a.
Qed.

Lemma wrapped_in_spec (q : ascii) (s : string) :
  wrapped_in q s = true ↔
  s = String q "" ∨ ∃ mid, s = String q (mid +:+ String q "").
Proof.
  unfold wrapped_in, PyStr.startswith.
  rewrite andb_true_iff, prefix_spec, endswith_spec. split.
  - intros [[r Hr] [a Ha]]. rewrite str_app_cons in Hr. cbn in Hr.
    subst s. destruct a as [|c a].
    + left. change (String q r = String q "") in Ha. by injection Ha as ->.
    + right. rewrite str_app_cons in Ha. injection Ha as Hc ->. by exists a.
  - intros [->|[mid ->]]; split.
    + by exists "".
    + by exists "".
    + by exists (mid +:+ String q "").
    + by exists (String q mid).
Qed.

(** X15: [strip_quotes] undoes one layer of quoting: a text wrapped in a pair
    of double quotes, or of single quotes, comes back as it was. *)
Theorem strip_quotes_unquote (text : string) :
  strip_quotes (Some (String dquote (text +:+ String dquote ""))) = Some text ∧
  strip_quotes (Some (String squote (text +:+ String squote ""))) = Some text.
Proof.
  assert (∀ q, PyStr.is_space q = false →
    PyStr.strip (String q (text +:+ String q "")) = String q (text +:+ String q ""))
    as Hstrip.
  { intros q Hq. unfold PyStr.strip. rewrite lstrip_keep by done.
    by rewrite <- str_app_cons, rstrip_snoc_keep. }
  assert (∀ q, wrapped_in q (String q (text +:+ String q "")) = true) as Hwrap.
  { intros q. apply wrapped_in_spec. right. by exists text. }
  split; unfold strip_quotes; cbn [PyStr.nonempty negb]; cbv zeta;
    rewrite Hstrip by done; rewrite Hwrap, ?orb_true_r; cbn [orb slice_1_m1];
    by rewrite drop_last_snoc.
Qed.

Lemma str_length_app (a b : string) :
  String.length (a +:+ b) = (String.length a + String.length b)%nat.
Proof. induction a as [|c a IH]; [done|]. rewrite str_app_cons. cbn. by rewrite IH. Qed.

Lemma lstrip_spec (s : string) :
  ∃ a, s = a +:+ PyStr.lstrip s ∧ PyStr.all PyStr.is_space a = true.
Proof.
  induction s as [|c s (a & IH & Ha)]; [by exists ""|]. cbn [PyStr.lstrip].
  destruct (PyStr.is_space c) eqn:Hc; [|by exists ""].
  exists (String c a). rewrite str_app_cons, <- IH. cbn. by rewrite Hc.
Qed.

Lemma rstrip_spec (s : string) :
  ∃ b, s = PyStr.rstrip s +:+ b ∧ PyStr.all PyStr.is_space b = true.
Proof.
  induction s as [|c s (b & IH & Hb)]; [by exists ""|]. rewrite rstrip_unfold.
  destruct (PyStr.rstrip s) as [|d r].
  - change ("" +:+ b) with b in IH. subst b.
    destruct (PyStr.is_space c) eqn:Hc.
    + exists (String c s). split; [done|]. cbn. by rewrite Hc.
    + by exists s.
  - exists b. by rewrite str_app_cons, <- IH.
Qed.

Lemma strip_spec (s : string) :
  ∃ a b, s = a +:+ (PyStr.strip s +:+ b) ∧
         PyStr.all PyStr.is_space a = true ∧ PyStr.all PyStr.is_space b = true.
Proof.
  destruct (lstrip_spec s) as (a & Ha & Hsa).
  destruct (rstrip_spec (PyStr.lstrip s)) as (b & Hb & Hsb).
  exists a, b. unfold PyStr.strip. by rewrite <- Hb.
Qed.

Lemma drop_last_spec (s : string) : ∃ r, s = drop_last s +:+ r.
Proof.
  induction s as [|c s [r IH]]; [by exists ""|].
  destruct s as [|d s]; [by exists (String c "")|].
  exists r.
  change (drop_last (String c (String d s)))
    with (String c (drop_last (String d s))).
  by rewrite str_app_cons, <- IH.
Qed.

Lemma contains_slice (s : string) : PyStr.contains (slice_1_m1 s) s = true.
Proof.
  apply contains_spec. destruct s as [|c s]; [by exists "", ""|].
  destruct (drop_last_spec s) as [r Hr].
  exists (String c ""), r. cbn [slice_1_m1]. by rewrite str_app_cons, <- Hr.
Qed.

Lemma contains_strip (s : string) : PyStr.contains (PyStr.strip s) s = true.
Proof.
  apply contains_spec. destruct (strip_spec s) as (a & b & H & _). eauto.
Qed.

Lemma contains_length (t s : string) :
  PyStr.contains t s = true → (String.length t ≤ String.length s)%nat.
Proof.
  rewrite contains_spec. intros (a & r & ->). rewrite !str_length_app. lia.
Qed.

Lemma strip_quotes_some (s : string) :
  ∃ r, strip_quotes (Some s) = Some r ∧ PyStr.contains r s = true.
Proof.
  unfold strip_quotes. destruct (negb (PyStr.nonempty s)).
  { exists s. by rewrite contains_refl. }
  cbv zeta. destruct (_ || _).
  - eexists. split; [done|].
    eapply contains_trans; [apply contains_slice | apply contains_strip].
  - eexists. split; [done|]. apply contains_strip.
Qed.

(** X16: [strip_quotes] gives [None] only for [None]; for a string it gives a
    contiguous part of that string, so never a longer one. *)
Theorem strip_quotes_part (s : string) :
  strip_quotes None = None ∧
  ∃ r, strip_quotes (Some s) = Some r ∧
       PyStr.contains r s = true ∧
       (String.length r ≤ String.length s)%nat.
Proof.
  split; [done|]. destruct (strip_quotes_some s) as (r & Hr & Hc).
  exists r. split_and!; [done | done | by apply contains_length].
Qed.

(** *** Splitting into fields *)

Lemma length_split (sep : ascii) (s : string) :
  length (PyStr.split sep s) = S (count_char sep s).
Proof.
  induction s as [|c s IH]; [done|]. cbn [PyStr.split count_char].
  destruct (decide (c = sep)); cbn [length]; [by rewrite IH|].
  destruct (PyStr.split sep s); cbn [length] in *; lia.
Qed.

Lemma split_no_sep (sep : ascii) (s : string) :
  Forall (λ piece, PyStr.has_char sep piece = false) (PyStr.split sep s).
Proof.
  induction s as [|c s IH]; cbn [PyStr.split]; [by repeat constructor|].
  destruct (decide (c = sep)) as [|Hne]; [by constructor|].
  destruct IH as [|piece pieces Hp Hps]; constructor; try done.
  all: cbn [PyStr.has_char]; by rewrite bool_decide_eq_false_2.
Qed.

Lemma has_char_app (sep : ascii) (a b : string) :
  PyStr.has_char sep (a +:+ b) = PyStr.has_char sep a || PyStr.has_char sep b.
Proof.
  induction a as [|c a IH]; [done|]. rewrite str_app_cons. cbn [PyStr.has_char].
  by rewrite IH, orb_assoc.
Qed.

Lemma has_char_contains (sep : ascii) (t s : string) :
  PyStr.contains t s = true → PyStr.has_char sep s = false →
  PyStr.has_char sep t = false.
Proof.
  rewrite contains_spec. intros (a & r & ->). rewrite !has_char_app.
  by intros [_ [? _]%orb_false_elim]%orb_false_elim.
Qed.

Lemma has_char_spaces (c : ascii) (a : string) :
  PyStr.is_space c = false → PyStr.all PyStr.is_space a = true →
  PyStr.has_char c a = false.
Proof.
  intros Hc. induction a as [|d a IH]; [done|]. cbn.
  intros [Hd Ha]%andb_prop. rewrite IH by done.
  rewrite bool_decide_eq_false_2; [done|]. intros ->. congruence.
Qed.

Lemma has_char_strip (c : ascii) (s : string) :
  PyStr.is_space c = false →
  PyStr.has_char c (PyStr.strip s) = PyStr.has_char c s.
Proof.
  intros Hc. destruct (strip_spec s) as (a & b & Hs & Ha & Hb).
  rewrite Hs at 2.
  rewrite !has_char_app, (has_char_spaces c a), (has_char_spaces c b) by done.
  by rewrite orb_false_r.
Qed.

Lemma has_char_slice (c q : ascii) (s : string) :
  c ≠ q → wrapped_in q s = true →
  PyStr.has_char c (slice_1_m1 s) = PyStr.has_char c s.
Proof.
  intros Hne [->|[mid ->]]%wrapped_in_spec.
  - cbn. by rewrite bool_decide_eq_false_2.
  - cbn [slice_1_m1 PyStr.has_char]. rewrite drop_last_snoc, has_char_app.
    cbn [PyStr.has_char]. rewrite !bool_decide_eq_false_2 by done.
    by rewrite !orb_false_r.
Qed.

Lemma strip_quotes_has_char (c : ascii) (s r : string) :
  PyStr.is_space c = false → c ≠ dquote → c ≠ squote →
  strip_quotes (Some s) = Some r →
  PyStr.has_char c r = PyStr.has_char c s.
Proof.
  intros Hc Hd Hs. unfold strip_quotes.
  destruct (negb (PyStr.nonempty s)); [by intros [= ->]|]. cbv zeta.
  destruct (wrapped_in dquote _) eqn:Hwd; cbn [orb].
  { intros [= <-]. by rewrite (has_char_slice c dquote), has_char_strip. }
  destruct (wrapped_in squote _) eqn:Hws.
  { intros [= <-]. by rewrite (has_char_slice c squote), has_char_strip. }
  intros [= <-]. by apply has_char_strip.
Qed.

Lemma strip_quotes_no_sep (sep : ascii) (s : string) :
  PyStr.has_char sep s = false →
  ∃ r, strip_quotes (Some s) = Some r ∧ PyStr.has_char sep r = false.
Proof.
  intros Hs. destruct (strip_quotes_some s) as (r & Hr & Hc).
  exists r. split; [done|]. by apply (has_char_contains sep r s).
Qed.

Lemma strip_no_sep (sep : ascii) (s : string) :
  PyStr.has_char sep s = false → PyStr.has_char sep (PyStr.strip s) = false.
Proof. intros Hs. by apply (has_char_contains sep _ s), Hs; apply contains_strip. Qed.

Lemma parts_no_sep (sep : ascii) (line : string) :
  Forall (λ part, PyStr.has_char sep part = false)
         (PyStr.strip <$> PyStr.split sep line).
Proof.
  apply Forall_fmap. eapply Forall_impl; [apply split_no_sep|].
  intros piece Hp. by apply strip_no_sep.
Qed.

Lemma nth_or_empty_no_sep (sep : ascii) (parts : list string) (i : nat) :
  Forall (λ part, PyStr.has_char sep part = false) parts →
  PyStr.has_char sep (nth_or_empty parts i) = false.
Proof.
  intros Hall. unfold nth_or_empty. destruct (parts !! i) as [part|] eqn:Hi; [|done].
  rewrite Forall_forall in Hall. apply Hall. by eapply list_elem_of_lookup_2.
Qed.

Lemma last_or_empty_no_sep (sep : ascii) (parts : list string) :
  Forall (λ part, PyStr.has_char sep part = false) parts →
  PyStr.has_char sep (last_or_empty parts) = false.
Proof.
  intros Hall. unfold last_or_empty. destruct (last parts) as [part|] eqn:Hl; [|done].
  rewrite Forall_forall in Hall. apply Hall.
  rewrite last_lookup in Hl. by eapply list_elem_of_lookup_2.
Qed.

(** X17: [extract_yahoo_fields] gives up (three [None]) exactly on the lines
    with fewer than two colons; otherwise it returns three strings, the
    username and the password hold no colon, and the email is the username
    when that contains '@' and the empty string when it does not. *)
Theorem extract_yahoo_fields_spec (line : string) :
  match extract_yahoo_fields line with
  | (Some uname, Some mail, Some pwd) =>
      (2 ≤ count_char ":" line)%nat ∧
      PyStr.has_char ":" uname = false ∧
      PyStr.has_char ":" pwd = false ∧
      mail = (if PyStr.has_char "@" uname then uname else "")
  | (None, None, None) => (count_char ":" line < 2)%nat
  | _ => False
  end.
Proof.
  unfold extract_yahoo_fields. rewrite length_fmap, length_split.
  pose proof (parts_no_sep ":" line) as Hparts.
  destruct (Nat.leb_spec 3 (S (count_char ":" line))) as [Hlen|Hlen]; [|lia].
  cbv zeta.
  destruct (strip_quotes_no_sep ":" _ (nth_or_empty_no_sep ":" _ 1 Hparts))
    as (u & Hu & Hnu).
  destruct (strip_quotes_no_sep ":" _ (last_or_empty_no_sep ":" _ Hparts))
    as (p & Hp & Hnp).
  rewrite Hu, Hp.
  rewrite <- (strip_quotes_has_char "@" _ u eq_refl) by done.
  destruct (PyStr.has_char "@" u).
  - rewrite Hu. split_and!; [lia | done..].
  - split_and!; [lia | done..].
Qed.

(** X18: [extract_csdn_fields] never raises; it gives up (three [None])
    exactly on the lines with fewer than two '#', and otherwise returns three
    strings without '#'. *)
Theorem extract_csdn_fields_spec (line : string) :
  ∃ fields,
    extract_csdn_fields line = Ok fields ∧
    match fields with
    | (Some uname, Some mail, Some pwd) =>
        (2 ≤ count_char "#" line)%nat ∧
        PyStr.has_char "#" uname = false ∧
        PyStr.has_char "#" mail = false ∧
        PyStr.has_char "#" pwd = false
    | (None, None, None) => (count_char "#" line < 2)%nat
    | _ => False
    end.
Proof.
  unfold extract_csdn_fields.
  pose proof (parts_no_sep "#" line) as Hparts.
  pose proof (length_split "#" line) as Hlen.
  rewrite <- (length_fmap PyStr.strip) in Hlen.
  destruct (PyStr.strip <$> PyStr.split "#" line) as [|p0 [|p1 [|p2 parts]]];
    cbn [length] in Hlen.
  1-3: eexists; split; [done|]; cbn; lia.
  inversion_clear Hparts as [|? ? H0 Hparts1].
  inversion_clear Hparts1 as [|? ? H1 Hparts2].
  inversion_clear Hparts2 as [|? ? H2 _].
  destruct (strip_quotes_no_sep "#" _ H0) as (u & Hu & Hnu).
  destruct (strip_quotes_no_sep "#" _ H1) as (p & Hp & Hnp).
  destruct (strip_quotes_no_sep "#" _ H2) as (e & He & Hne).
  eexists. split.
  - cbn [length Nat.leb py_index lookup list_lookup mbind result_bind mret result_ret].
    by rewrite Hu, Hp, He.
  - cbn. split_and!; [lia | done..].
Qed.

(** *** Recovering the fields of a well-formed line *)

Lemma split_no_sep_id (sep : ascii) (a : string) :
  PyStr.has_char sep a = false → PyStr.split sep a = [a].
Proof.
  induction a as [|c a IH]; [done|]. cbn [PyStr.has_char PyStr.split].
  intros [Hc Ha]%orb_false_elim. apply bool_decide_eq_false in Hc.
  destruct (decide (c = sep)); [done|]. by rewrite IH.
Qed.

Lemma split_app_sep (sep : ascii) (a b : string) :
  PyStr.has_char sep a = false →
  PyStr.split sep (a +:+ String sep b) = a :: PyStr.split sep b.
Proof.
  induction a as [|c a IH].
  - intros _. change (PyStr.split sep (String sep b) = "" :: PyStr.split sep b).
    cbn [PyStr.split]. by destruct (decide (sep = sep)).
  - cbn [PyStr.has_char]. intros [Hc Ha]%orb_false_elim.
    apply bool_decide_eq_false in Hc.
    rewrite str_app_cons. cbn [PyStr.split].
    destruct (decide (c = sep)); [done|]. by rewrite IH.
Qed.

Lemma split_snoc (sep : ascii) (x p : string) :
  PyStr.has_char sep p = false →
  ∃ q l, PyStr.split sep (x +:+ String sep p) = q :: l ++ [p].
Proof.
  intros Hp. induction x as [|c x (q & l & IH)].
  - exists "", []. change (PyStr.split sep (String sep p) = ["" ; p]).
    cbn [PyStr.split]. destruct (decide (sep = sep)); [|done].
    by rewrite split_no_sep_id.
  - rewrite str_app_cons. cbn [PyStr.split]. rewrite IH.
    destruct (decide (c = sep)); [by exists "", (q :: l) | by exists (String c q), l].
Qed.

Lemma split_last (sep : ascii) (x p : string) :
  PyStr.has_char sep p = false →
  last (PyStr.split sep (x +:+ String sep p)) = Some p.
Proof.
  intros Hp. destruct (split_snoc sep x p Hp) as (q & l & ->).
  by rewrite app_comm_cons, last_snoc.
Qed.

(** X19: a line in the csdn layout [user # password # email] gives back its
    three fields, each stripped of surrounding blanks and of one pair of
    quotes, when no field holds a '#'. *)
Theorem extract_csdn_fields_layout (user pwd mail : string) :
  PyStr.has_char "#" user = false →
  PyStr.has_char "#" pwd = false →
  PyStr.has_char "#" mail = false →
  extract_csdn_fields (user +:+ String "#" (pwd +:+ String "#" mail)) =
  Ok (strip_quotes (Some (PyStr.strip user)),
      strip_quotes (Some (PyStr.strip mail)),
      strip_quotes (Some (PyStr.strip pwd))).
Proof.
  intros Hu Hp He. unfold extract_csdn_fields.
  by rewrite !split_app_sep, split_no_sep_id by done.
Qed.

Lemma extract_csdn_fields_layout_witness :
  extract_csdn_fields "zdg # 12344321 # zdg@csdn.net" =
  Ok (Some "zdg", Some "zdg@csdn.net", Some "12344321").
Proof.
  exact (extract_csdn_fields_layout "zdg " " 12344321 " " zdg@csdn.net"
           eq_refl eq_refl eq_refl).
Defined.

(** X20: a line in the yahoo layout [id:username:...:password] gives back the
    username after the first colon and the password after the last one, each
    stripped of surrounding blanks and of one pair of quotes, when the id,
    the username and the password hold no colon; the email is the username
    when that holds '@'. *)
Theorem extract_yahoo_fields_layout (uid user middle pwd : string) :
  PyStr.has_char ":" uid = false →
  PyStr.has_char ":" user = false →
  PyStr.has_char ":" pwd = false →
  extract_yahoo_fields
    (uid +:+ String ":" (user +:+ String ":" (middle +:+ String ":" pwd))) =
  (strip_quotes (Some (PyStr.strip user)),
   strip_quotes (Some (if PyStr.has_char "@" (PyStr.strip user)
                       then PyStr.strip user else "")),
   strip_quotes (Some (PyStr.strip pwd))).
Proof.
  intros Hi Hu Hp. unfold extract_yahoo_fields.
  assert (last_or_empty
            (PyStr.strip <$>
               PyStr.split ":"
                 (uid +:+ String ":" (user +:+ String ":" (middle +:+ String ":" pwd))))
          = PyStr.strip pwd) as Hlast.
  { unfold last_or_empty. rewrite fmap_last.
    rewrite <- !str_app_cons, <- !str_app_assoc.
    by rewrite split_last. }
  rewrite Hlast. rewrite !split_app_sep by done.
  pose proof (length_split ":" (middle +:+ String ":" pwd)) as Hlen.
  rewrite !fmap_cons. cbn [length]. rewrite length_fmap, Hlen.
  done.
Qed.

Lemma extract_yahoo_fields_layout_witness :
  extract_yahoo_fields "1:bob@x.com:secret:5f4dcc" =
  (Some "bob@x.com", Some "bob@x.com", Some "5f4dcc").
Proof.
  exact (extract_yahoo_fields_layout "1" "bob@x.com" "secret" "5f4dcc"
           eq_refl eq_refl eq_refl).
Defined.

(** *** The loop over the lines *)

Lemma lstrip_spaces (s : string) :
  PyStr.all PyStr.is_space s = true → PyStr.lstrip s = "".
Proof.
  induction s as [|c s IH]; [done|]. cbn. intros [-> Hs]%andb_prop. auto.
Qed.

Lemma strip_spaces (s : string) :
  PyStr.all PyStr.is_space s = true → PyStr.strip s = "".
Proof. intros Hs. unfold PyStr.strip. by rewrite lstrip_spaces. Qed.

Lemma strip_empty_spaces (s : string) :
  PyStr.nonempty (PyStr.strip s) = false → PyStr.all PyStr.is_space s = true.
Proof.
  intros He%nonempty_false. destruct (strip_spec s) as (a & b & Hs & Ha & Hb).
  rewrite Hs, He, !all_app, Ha, Hb. done.
Qed.

Lemma re_split_on_all (is_sep q : ascii → bool) (b : bool) (s : string) :
  (∀ c, is_sep c = true → q c = true) →
  Forall (λ piece, PyStr.all q piece = true) (re_split_on is_sep b s) →
  PyStr.all q s = true.
Proof.
  intros Hsep. revert b; induction s as [|c s IH]; intros b; [done|].
  cbn [re_split_on PyStr.all]. destruct (is_sep c) eqn:Hc.
  - rewrite (Hsep c Hc). destruct b; [apply IH|].
    intros Hall. inversion_clear Hall. eauto.
  - destruct (re_split_on is_sep false s) as [|p ps] eqn:Hsplit.
    + intros Hall. inversion_clear Hall as [|? ? Hp _]. cbn in Hp.
      apply andb_prop in Hp as [-> _]. apply (IH false). rewrite Hsplit. constructor.
    + intros Hall. inversion_clear Hall as [|? ? Hp Hps]. cbn in Hp.
      apply andb_prop in Hp as [-> Hp]. apply (IH false). rewrite Hsplit.
      by constructor.
Qed.

Lemma tab_or_space_is_space (c : ascii) :
  is_tab_or_space c = true → PyStr.is_space c = true.
Proof.
  unfold is_tab_or_space. intros [H|H]%orb_prop;
    apply bool_decide_eq_true in H; by subst.
Qed.

Lemma filter_nil_forall {A} (f : A → bool) (l : list A) :
  List.filter f l = [] → Forall (λ x, f x = false) l.
Proof.
  induction l as [|x l IH]; [constructor|]. cbn.
  destruct (f x) eqn:Hx; [done|]. constructor; auto.
Qed.

Lemma fallback_parts_cons (line : string) :
  PyStr.nonempty (PyStr.strip line) = true →
  ∃ part parts,
    PyStr.strip <$>
      List.filter (λ p, PyStr.nonempty (PyStr.strip p))
                  (re_split_on is_tab_or_space false line) = part :: parts.
Proof.
  intros Hline.
  destruct (List.filter _ _) as [|piece pieces] eqn:Hf; [|by eauto].
  apply filter_nil_forall in Hf.
  assert (PyStr.all PyStr.is_space line = true) as Hall.
  { apply (re_split_on_all is_tab_or_space _ false);
      [apply tab_or_space_is_space|].
    eapply Forall_impl; [exact Hf|]. intros p Hp. by apply strip_empty_spaces. }
  by rewrite strip_spaces in Hline.
Qed.

Lemma fallback_fields_ok (line : string) :
  PyStr.nonempty (PyStr.strip line) = true →
  ∃ fields, fallback_fields line = Ok fields ∧ fields_shape fields.
Proof.
  intros Hline. unfold fallback_fields.
  destruct (fallback_parts_cons line Hline) as (part & parts & ->).
  destruct parts as [|part1 parts]; [by eexists|].
  cbn [length Nat.leb py_index lookup list_lookup mbind result_bind].
  destruct (PyStr.has_char "@" part); [|by eexists].
  destruct (split_cons "@" part) as (p & ps & ->). by eexists.
Qed.

Lemma extract_yahoo_fields_shape (line : string) :
  fields_shape (extract_yahoo_fields line).
Proof.
  unfold extract_yahoo_fields. destruct (3 <=? _)%nat; [|done]. cbv zeta.
  by destruct (strip_quotes_some (nth_or_empty (PyStr.strip <$> PyStr.split ":" line) 1))
    as (u & -> & _).
Qed.

Lemma extract_csdn_fields_shape (line : string) :
  ∃ fields, extract_csdn_fields line = Ok fields ∧ fields_shape fields.
Proof.
  unfold extract_csdn_fields.
  destruct (PyStr.strip <$> PyStr.split "#" line) as [|p0 [|p1 [|p2 parts]]];
    [by eexists..|].
  cbn [length Nat.leb py_index lookup list_lookup mbind result_bind mret result_ret].
  destruct (strip_quotes_some p0) as (u & -> & _). by eexists.
Qed.

Lemma parse_line_ok (source line : string) :
  ∃ parsed,
    parse_line source line = Ok parsed ∧
    match parsed with
    | None => is_blank line = true
    | Some rec =>
        is_blank line = false ∧ src rec = Some source ∧
        is_Some (username rec) ∧ is_Some (email rec) ∧ is_Some (password rec)
    end.
Proof.
  unfold parse_line, is_blank. cbv zeta.
  set (l := rstrip_with is_newline line).
  destruct (PyStr.nonempty (PyStr.strip l)) eqn:Hl; cbn [negb]; [|by eexists].
  assert (∃ fields,
            (if PyStr.has_char "#" l && PyStr.has_char "@" l
             then extract_csdn_fields l
             else if PyStr.has_char ":" l then mret (extract_yahoo_fields l)
                  else fallback_fields l) = Ok fields ∧ fields_shape fields)
    as (fields & -> & Hshape).
  { destruct (_ && _); [apply extract_csdn_fields_shape|].
    destruct (PyStr.has_char ":" l); [|by apply fallback_fields_ok].
    eexists. split; [done|]. apply extract_yahoo_fields_shape. }
  destruct fields as [[[u|] [e|]] [p|]]; try done;
    eexists; (split; [done|]); cbn; eauto 10.
Qed.

Lemma parse_lines_acc (source : string) (lines : list string) (acc : list record) :
  parse_lines source lines acc = acc ++ parse_lines source lines [].
Proof.
  revert acc; induction lines as [|line lines IH]; intros acc.
  { cbn. by rewrite app_nil_r. }
  cbn [parse_lines].
  destruct (parse_line_ok source line) as ([rec|] & -> & _).
  - rewrite (IH (acc ++ [rec])), (IH ([] ++ [rec])). by rewrite <- app_assoc.
  - apply IH.
Qed.

Lemma parse_lines_length (source : string) (lines : list string) :
  length (parse_lines source lines []) =
  length (List.filter (λ line, negb (is_blank line)) lines).
Proof.
  induction lines as [|line lines IH]; [done|].
  cbn [parse_lines List.filter].
  destruct (parse_line_ok source line) as ([rec|] & -> & Hrec).
  - destruct Hrec as (-> & _). rewrite parse_lines_acc. cbn [negb app length].
    by rewrite IH.
  - rewrite Hrec. by cbn [negb].
Qed.

(** X21: reading never stops on an exception: every line that is not blank
    gives exactly one record, also a line that fits no layout, and every
    field of a record is a string, with [src] the name of the file. *)
Theorem parse_lines_one_record_per_line (source : string) (lines : list string) :
  length (parse_lines source lines []) =
    length (List.filter (λ line, negb (is_blank line)) lines) ∧
  Forall (λ rec, src rec = Some source ∧ is_Some (username rec) ∧
                 is_Some (email rec) ∧ is_Some (password rec))
         (parse_lines source lines []).
Proof.
  split; [apply parse_lines_length|].
  induction lines as [|line lines IH]; [constructor|].
  cbn [parse_lines].
  destruct (parse_line_ok source line) as ([rec|] & -> & Hrec); [|done].
  rewrite parse_lines_acc. cbn [app]. constructor; [apply Hrec | done].
Qed.

(** ** From the lines to the summary *)

Lemma count_char_has_char (sep : ascii) (s : string) :
  (0 < count_char sep s)%nat → PyStr.has_char sep s = true.
Proof.
  induction s as [|c s IH]; cbn [count_char PyStr.has_char]; [lia|].
  destruct (decide (c = sep)) as [->|Hne].
  - by rewrite bool_decide_eq_true_2.
  - intros H. rewrite IH by lia. apply orb_true_r.
Qed.

Lemma has_char_nonblank (c : ascii) (s : string) :
  PyStr.is_space c = false → PyStr.has_char c s = true →
  PyStr.nonempty (PyStr.strip s) = true.
Proof.
  intros Hc Hs. rewrite <- (has_char_strip c s Hc) in Hs.
  by destruct (PyStr.strip s).
Qed.

(** X22: a line with exactly one colon that is not in the csdn layout is not
    dropped: it becomes a record with three empty fields, which has no
    primary relation and so counts as [no_relation]. *)
Theorem single_colon_line_counts_unrelated (source line : string) :
  count_char ":" (rstrip_with is_newline line) = 1%nat →
  PyStr.has_char "#" (rstrip_with is_newline line)
    && PyStr.has_char "@" (rstrip_with is_newline line) = false →
  parse_line source line = Ok (Some (empty_record source)) ∧
  primary_relation (empty_record source) = Ok None.
Proof.
  intros Hcount Hcsdn. split.
  - unfold parse_line. cbv zeta.
    assert (PyStr.has_char ":" (rstrip_with is_newline line) = true) as Hcolon
      by (apply count_char_has_char; lia).
    rewrite (has_char_nonblank ":" _ eq_refl Hcolon), Hcsdn, Hcolon.
    cbn [negb]. unfold extract_yahoo_fields.
    rewrite length_fmap, length_split, Hcount. done.
  - rewrite primary_relation_ok. by vm_compute.
Qed.

Lemma single_colon_line_counts_unrelated_witness :
  parse_line "plaintxt_yahoo.txt" ("bob:secret" +:+ String "010" "") =
    Ok (Some (empty_record "plaintxt_yahoo.txt")) ∧
  primary_relation (empty_record "plaintxt_yahoo.txt") = Ok None.
Proof.
  apply single_colon_line_counts_unrelated; reflexivity.
Defined.

(** X23: [main] analyses the records of its two files together: when that
    returns a summary, its total is the number of lines of the two files
    that are not blank, and is not 0; it fails, in the chart, exactly when
    neither file has such a line. *)
Theorem main_total_counts_lines (source1 source2 : string)
    (lines1 lines2 : list string) :
  match analyze_relations
          (parse_lines source1 lines1 [] ++ parse_lines source2 lines2 []) with
  | Ok summary =>
      0 < total summary ∧
      total summary =
        Z.of_nat (length (List.filter (λ line, negb (is_blank line)) lines1)) +
        Z.of_nat (length (List.filter (λ line, negb (is_blank line)) lines2))
  | Raise e =>
      e = ValueError ∧
      List.filter (λ line, negb (is_blank line)) lines1 = [] ∧
      List.filter (λ line, negb (is_blank line)) lines2 = []
  end.
Proof.
  pose proof (parse_lines_length source1 lines1) as H1.
  pose proof (parse_lines_length source2 lines2) as H2.
  rewrite analyze_relations_cases.
  destruct (parse_lines source1 lines1 [] ++ parse_lines source2 lines2 [])
    as [|rec records] eqn:Happ.
  - apply app_eq_nil in Happ as [Hn1 Hn2]. rewrite Hn1 in H1. rewrite Hn2 in H2.
    split_and!; [done | by destruct (List.filter _ lines1)
                | by destruct (List.filter _ lines2)].
  - rewrite compute_summary_closed. cbn [total].
    split; [cbn [length]; lia|].
    rewrite <- Happ, length_app. lia.
Qed.

(** ** The local part *)

Lemma split_hd_prefix (sep : ascii) (s : string) :
  ∃ r, s = hd "" (PyStr.split sep s) +:+ r.
Proof.
  induction s as [|c s [r IH]]; [by exists ""|]. cbn [PyStr.split].
  destruct (decide (c = sep)); [by exists (String c s)|].
  destruct (PyStr.split sep s) as [|p ps]; cbn [hd] in *.
  - exists s. by rewrite str_app_cons.
  - exists r. by rewrite str_app_cons, <- IH.
Qed.

Lemma local_part_prefix (mail : string) : ∃ r, mail = local_part mail +:+ r.
Proof.
  unfold local_part. destruct (PyStr.has_char "@" mail); [|by exists mail].
  apply split_hd_prefix.
Qed.

(** X24: when [exact_email] is true and the local part of the email has an
    alphanumeric character, [contains_localpart] is true as well. *)
Theorem exact_email_gives_localpart (rec : record) (flags : gmap string PyVal) :
  detect_relations rec = Ok flags →
  flags !! "exact_email" = Some (VBool true) →
  local_norm rec ≠ "" →
  flags !! "contains_localpart" = Some (VBool true).
Proof.
  rewrite detect_relations_ok. intros [= <-].
  rewrite lookup_exact_email, lookup_contains_localpart.
  intros [= [_ Heq%bool_decide_eq_true]%andb_prop] Hlocal.
  do 2 f_equal. apply andb_true_iff. split; [by destruct (local_norm rec)|].
  apply contains_spec. rewrite Heq. unfold e_norm, local_norm.
  destruct (local_part_prefix (email_of rec)) as [r Hr].
  exists "", (normalize_alnum (Some r)).
  rewrite Hr at 1. unfold normalize_alnum, PyStr.lower.
  by rewrite map_app, filter_app.
Qed.

Lemma exact_email_gives_localpart_witness :
  let rec := {| username := Some "carol"; email := Some "c.smith@x.com";
                password := Some "CSmithXCom"; src := Some "www.csdn.net.sql" |} in
  relation_flags rec !! "exact_email" = Some (VBool true) ∧
  relation_flags rec !! "contains_localpart" = Some (VBool true).
Proof.
  intros rec.
  assert (relation_flags rec !! "exact_email" = Some (VBool true)) as He
    by (vm_compute; reflexivity).
  assert (local_norm rec ≠ "") as Hl by (vm_compute; discriminate).
  exact (conj He (exact_email_gives_localpart rec (relation_flags rec)
                    (detect_relations_ok rec) He Hl)).
Defined.

(** ** Letter case of the password *)

Lemma deleet_char_lower (c : ascii) :
  PyStr.lower_char (deleet_char (PyStr.lower_char c)) =
  PyStr.lower_char (deleet_char c).
Proof. each_char c; vm_compute; reflexivity. Qed.

Lemma lower_lower (s : string) : PyStr.lower (PyStr.lower s) = PyStr.lower s.
Proof.
  unfold PyStr.lower. induction s as [|c s IH]; [done|].
  cbn [PyStr.map]. by rewrite lower_char_idempotent, IH.
Qed.

Lemma lower_or_empty (x : option string) :
  py_or_empty (PyStr.lower <$> x) = PyStr.lower (py_or_empty x).
Proof. by destruct x as [[|c s]|]. Qed.

Lemma normalize_alnum_lower (s : string) :
  normalize_alnum (Some (PyStr.lower s)) = normalize_alnum (Some s).
Proof. unfold normalize_alnum. by rewrite lower_lower. Qed.

Lemma deleet_lower (s : string) :
  deleet (Some (PyStr.lower s)) = deleet (Some s).
Proof.
  rewrite !deleet_nonempty. unfold PyStr.lower.
  induction s as [|c s IH]; [done|].
  cbn [PyStr.map]. by rewrite deleet_char_lower, IH.
Qed.

(** X25: the classification ignores the letter case of the password:
    putting the password in lower case leaves every flag, and the primary
    relation, unchanged. *)
Theorem detect_relations_ignores_password_case (rec : record) :
  detect_relations (lower_password rec) = detect_relations rec ∧
  primary_relation (lower_password rec) = primary_relation rec.
Proof.
  assert (relation_flags (lower_password rec) = relation_flags rec) as Hflags.
  { assert (p_norm (lower_password rec) = p_norm rec) as Hp.
    { unfold p_norm, pwd_of, lower_password. cbn [password].
      by rewrite lower_or_empty, normalize_alnum_lower. }
    assert (p_deleet (lower_password rec) = p_deleet rec) as Hd.
    { unfold p_deleet, pwd_of, lower_password. cbn [password].
      by rewrite lower_or_empty, deleet_lower. }
    unfold relation_flags. by rewrite Hp, Hd. }
  by rewrite !primary_relation_ok, !detect_relations_ok, Hflags.
Qed.

(** ** The layout without separators *)

Lemma re_split_on_word (is_sep : ascii → bool) (b : bool) (a : string) :
  PyStr.all (λ c, negb (is_sep c)) a = true → re_split_on is_sep b a = [a].
Proof.
  revert b; induction a as [|c a IH]; intros b; [done|].
  cbn [PyStr.all re_split_on]. intros [Hc Ha]%andb_prop.
  apply negb_true_iff in Hc. by rewrite Hc, IH.
Qed.

Lemma re_split_on_app (is_sep : ascii → bool) (a b : string) (c : ascii) :
  PyStr.all (λ c, negb (is_sep c)) a = true → is_sep c = true →
  re_split_on is_sep false (a +:+ String c b) = a :: re_split_on is_sep true b.
Proof.
  intros Ha Hc. induction a as [|x a IH].
  - change (re_split_on is_sep false (String c b) = "" :: re_split_on is_sep true b).
    cbn [re_split_on]. by rewrite Hc.
  - cbn [PyStr.all] in Ha. apply andb_prop in Ha as [Hx Ha].
    apply negb_true_iff in Hx.
    rewrite str_app_cons. cbn [re_split_on]. by rewrite Hx, IH.
Qed.

Lemma no_space_no_sep (s : string) :
  no_space s = true → PyStr.all (λ c, negb (is_tab_or_space c)) s = true.
Proof.
  unfold no_space. induction s as [|c s IH]; [done|]. cbn [PyStr.all].
  intros [Hc Hs]%andb_prop. rewrite IH by done.
  destruct (is_tab_or_space c) eqn:Ht; [|done].
  apply tab_or_space_is_space in Ht. by rewrite Ht in Hc.
Qed.

Lemma strip_no_space (s : string) : no_space s = true → PyStr.strip s = s.
Proof.
  unfold no_space, PyStr.strip. intros Hs.
  assert (PyStr.lstrip s = s) as ->.
  { destruct s as [|c s]; [done|]. cbn [PyStr.all PyStr.lstrip] in *.
    apply andb_prop in Hs as [Hc%negb_true_iff _]. by rewrite Hc. }
  induction s as [|c s IH]; [done|]. cbn [PyStr.all] in Hs.
  apply andb_prop in Hs as [Hc%negb_true_iff Hs].
  rewrite rstrip_unfold, IH by done. destruct s; [by rewrite Hc | done].
Qed.

(** X26: a line of two words without white space in them, separated by one
    blank, is read as username and password; when the first word holds '@'
    it is the email and the username is its part before the '@'. *)
Theorem fallback_fields_layout (word pwd : string) :
  no_space word = true → PyStr.nonempty word = true →
  no_space pwd = true → PyStr.nonempty pwd = true →
  fallback_fields (word +:+ String " " pwd) =
  Ok (if PyStr.has_char "@" word
      then (Some (local_part word), Some word, Some pwd)
      else (Some word, None, Some pwd)).
Proof.
  intros Hw Hwn Hp Hpn. unfold fallback_fields.
  rewrite re_split_on_app by auto using no_space_no_sep.
  rewrite re_split_on_word by auto using no_space_no_sep.
  cbn [List.filter]. rewrite !strip_no_space, Hwn, Hpn by done.
  cbn [fmap list_fmap]. rewrite !strip_no_space by done.
  cbn [length Nat.leb py_index lookup list_lookup mbind result_bind].
  unfold local_part. destruct (PyStr.has_char "@" word); [|done].
  by destruct (split_cons "@" word) as (p & ps & ->).
Qed.

Lemma fallback_fields_layout_witness :
  fallback_fields "carol@x.com secret" =
  Ok (Some "carol", Some "carol@x.com", Some "secret").
Proof.
  exact (fallback_fields_layout "carol@x.com" "secret"
           eq_refl eq_refl eq_refl eq_refl).
Defined.
